(** * browser-use-terminal-ui: credential manager and automation session

    A shallow embedding of [src/main.py]: the [LLMManager] class (key format
    validation, masking, the [.env]-backed secret store, live verification,
    the add/update transaction with its rollback) and the [BrowserAutomation]
    class (lazy initialisation and teardown of the browser and its context).

    Python values are modelled as follows.
    - A [str] is a list of Unicode code points ([list N]); [len] is [length].
    - [Optional[str]] is [option str]; truthiness [not x] is [negb (truthy x)].
    - [os.environ] and the [.env] file are finite maps from names to values.
    - [print], [logger.*], the LLM clients and the file system are effects:
      they are recorded in, or answered from, an explicit [World]. *)

From Stdlib Require Import String Ascii.
From stdpp Require Import gmap list.

Local Open Scope N_scope.

(** ** Python strings *)

Definition str := list N.

(** An ASCII literal of the source, as code points. *)
Definition lit (s : string) : str :=
  map N_of_ascii (list_ascii_of_string s).

(** [bool(s)] for [s : Optional[str]]: [None] and [""] are falsy. *)
Definition truthy (o : option str) : bool :=
  match o with
  | None | Some [] => false
  | Some (_ :: _) => true
  end.

(** [s.startswith(p)] *)
Fixpoint startswith (s p : str) {struct p} : bool :=
  match p, s with
  | [], _ => true
  | _ :: _, [] => false
  | c :: p', d :: s' => (c =? d) && startswith s' p'
  end.

(** [p in s]: some suffix of [s] starts with [p]. *)
Fixpoint contains (s p : str) : bool :=
  startswith s p ||
  match s with
  | [] => false
  | _ :: s' => contains s' p
  end.

(** The code points Python's [str.strip()] removes (those with
    [str.isspace()] true). *)
Definition isspace (c : N) : bool :=
  ((9 <=? c) && (c <=? 13)) || ((28 <=? c) && (c <=? 32)) ||
  (c =? 133) || (c =? 160) || (c =? 5760) ||
  ((8192 <=? c) && (c <=? 8202)) || (c =? 8232) || (c =? 8233) ||
  (c =? 8239) || (c =? 8287) || (c =? 12288).

Fixpoint lstrip (s : str) : str :=
  match s with
  | [] => []
  | c :: s' => if isspace c then lstrip s' else s
  end.

Definition rstrip (s : str) : str := rev (lstrip (rev s)).

(** [s.strip()] *)
Definition strip (s : str) : str := rstrip (lstrip s).

(** [s[:n]] for [n >= 0] *)
Definition slice_to (n : nat) (s : str) : str := take n s.

(** [s[-n:]] for [n > 0]: the start index [len(s) - n] is clamped at [0]. *)
Definition slice_from_end (n : nat) (s : str) : str :=
  drop (length s - n)%nat s.

Definition isalnum_ascii (c : N) : bool :=
  ((48 <=? c) && (c <=? 57)) || ((65 <=? c) && (c <=? 90)) ||
  ((97 <=? c) && (c <=? 122)).

(** ** What the program calls into

    The Unicode character database decides [isalnum] outside ASCII, and
    [repr] renders the key of a [KeyError]; neither is part of the
    repository. *)
Class Python := {
  unicode_isalnum : N -> bool;
  py_repr : str -> str
}.

Definition isalnum_char `{Python} (c : N) : bool :=
  if c <? 128 then isalnum_ascii c else unicode_isalnum c.

(** [s.isalnum()]: at least one character, all of them alphanumeric. *)
Definition isalnum `{Python} (s : str) : bool :=
  match s with
  | [] => false
  | _ :: _ => forallb isalnum_char s
  end.

(** A runtime that agrees with Python on ASCII text without quotes or
    escapes; used to run the model on such text. *)
Definition ascii_runtime : Python :=
  {| unicode_isalnum := fun _ => false;
     py_repr := fun s => lit "'" ++ s ++ lit "'" |}.

(** ** Exceptions and the state-and-exception monad *)

Inductive exn :=
| KeyError (key : str)
| Exception (msg : str).

(** [str(e)] *)
Definition str_of_exn `{Python} (e : exn) : str :=
  match e with
  | KeyError k => py_repr k
  | Exception m => m
  end.

Inductive outcome (A : Type) :=
| Return (a : A)
| Raise (e : exn).
Arguments Return {A} a.
Arguments Raise {A} e.

Definition M (S A : Type) : Type := S -> outcome A * S.

Definition ret {S A} (a : A) : M S A := fun s => (Return a, s).

Definition raise {S A} (e : exn) : M S A := fun s => (Raise e, s).

Definition bind {S A B} (m : M S A) (k : A -> M S B) : M S B :=
  fun s =>
    match m s with
    | (Return a, s') => k a s'
    | (Raise e, s') => (Raise e, s')
    end.

(** [try: m  except Exception as e: h e] *)
Definition try_except {S A} (m : M S A) (h : exn -> M S A) : M S A :=
  fun s =>
    match m s with
    | (Return a, s') => (Return a, s')
    | (Raise e, s') => h e s'
    end.

Definition gets {S A} (f : S -> A) : M S A := fun s => (Return (f s), s).

Definition modify {S} (f : S -> S) : M S unit := fun s => (Return tt, f s).

Declare Scope py_scope.
Delimit Scope py_scope with py.
Notation "x <- m ;; k" := (bind m (fun x => k))
  (at level 100, m at next level, right associativity) : py_scope.
Notation "m ;; k" := (bind m (fun _ => k))
  (at level 100, right associativity) : py_scope.
Local Open Scope py_scope.

(** What the program writes to the terminal and to the log. *)
Inductive Output :=
| Print (s : str)
| Prompt (s : str)
| LogError (s : str)
| LogInfo (s : str).

Definition nl : str := [10].
Definition cross : str := [10060].          (* U+274C *)
Definition check_mark : str := [9989].      (* U+2705 *)
Definition warning_sign : str := [9888; 65039].
Definition info_sign : str := [8505; 65039].

(** ** More of Python's text functions *)

Definition lower_ascii (c : N) : N :=
  if (65 <=? c) && (c <=? 90) then c + 32 else c.

(** [str.lower()] on text that is not pure ASCII follows the Unicode
    character database, which is not part of the repository. *)
Class Casing := {
  unicode_lower : str -> str
}.

(** [s.lower()] *)
Definition lower `{Casing} (s : str) : str :=
  if forallb (fun c => c <? 128) s then map lower_ascii s else unicode_lower s.

(** A casing that treats every string the way ASCII text is treated. *)
Definition ascii_casing : Casing :=
  {| unicode_lower := map lower_ascii |}.

(** [s.endswith(p)] *)
Definition endswith (s p : str) : bool := startswith (rev s) (rev p).

(** [os.path.join(a, b)] on a POSIX system. *)
Definition path_join (a b : str) : str :=
  if startswith b (lit "/") then b
  else if bool_decide (a = []) || endswith a (lit "/") then a ++ b
  else a ++ lit "/" ++ b.

(** An operation that leaves the observation [f] of the state as it is,
    whether it returns or raises. *)
Definition preserves {S A X} (f : S -> X) (m : M S A) : Prop :=
  forall s, f (snd (m s)) = f s.

(** ** Variable references in [.env] values

    python-dotenv reads a value back with every [${NAME}] and
    [${NAME:-DEFAULT}] in it replaced: by the value [NAME] has in the
    environment it is given, else by [DEFAULT], else by nothing. *)

(** Splits [s] before its first character that satisfies [stop]. *)
Fixpoint break (stop : N -> bool) (s : str) : str * str :=
  match s with
  | [] => ([], [])
  | c :: s' =>
      if stop c then ([], s)
      else (c :: fst (break stop s'), snd (break stop s'))
  end.

(** What follows an opening [${]: the name, the default if one is given,
    and the text after the closing brace; [None] when the text is not a
    reference after all. *)
Definition reference (s : str) : option (str * option str * str) :=
  let name := fst (break (fun c => (c =? 125) || (c =? 58)) s) in
  match snd (break (fun c => (c =? 125) || (c =? 58)) s) with
  | c1 :: r1 =>
      if c1 =? 125 then Some (name, None, r1)
      else
        match r1 with
        | c2 :: r2 =>
            if c2 =? 45 then
              match snd (break (fun c => c =? 125) r2) with
              | _ :: r3 => Some (name, Some (fst (break (fun c => c =? 125) r2)), r3)
              | [] => None
              end
            else None
        | [] => None
        end
  | [] => None
  end.

(** The expansion, scanning left to right; [n] bounds the number of
    characters still to be scanned. *)
Fixpoint expand_fuel (n : nat) (env : gmap str str) (s : str) : str :=
  match n, s with
  | S n', c :: s' =>
      match (if c =? 36 then
               match s' with
               | b :: s'' => if b =? 123 then reference s'' else None
               | [] => None
               end
             else None) with
      | Some (name, dflt, rest) =>
          default (default [] dflt) (env !! name) ++ expand_fuel n' env rest
      | None => c :: expand_fuel n' env s'
      end
  | _, _ => s
  end.

Definition expand (env : gmap str str) (s : str) : str :=
  expand_fuel (length s) env s.

(** A value that the [.env] round trip keeps as it is: no [$], which may
    open a reference, and neither a backslash nor a carriage return, which
    the file's quoting and line handling may alter. *)
Definition verbatim (s : str) : bool :=
  forallb (fun c => negb ((c =? 36) || (c =? 92) || (c =? 13))) s.

(** ** LLMManager *)

Module LLMManager.

Inductive LLMClass := ChatGoogleGenerativeAI | ChatAnthropic | ChatOpenAI.

Record ModelConfig := {
  name : str;
  provider : str;
  model : str;
  key_env : str;
  class : LLMClass
}.

(** [LLMManager.MODELS], in insertion order. *)
Definition MODELS : list (str * ModelConfig) :=
  [ (lit "1", {| name := lit "Gemini"; provider := lit "Google";
                 model := lit "gemini-2.0-flash-exp";
                 key_env := lit "GOOGLE_API_KEY";
                 class := ChatGoogleGenerativeAI |});
    (lit "2", {| name := lit "Claude"; provider := lit "Anthropic";
                 model := lit "claude-3-opus-20240229";
                 key_env := lit "ANTHROPIC_API_KEY";
                 class := ChatAnthropic |});
    (lit "3", {| name := lit "GPT-4"; provider := lit "OpenAI";
                 model := lit "gpt-4";
                 key_env := lit "OPENAI_API_KEY";
                 class := ChatOpenAI |}) ].

(** [MODELS.get(model_id)]: [None] when [model_id not in MODELS]. *)
Fixpoint models_get (ms : list (str * ModelConfig)) (model_id : str)
  : option ModelConfig :=
  match ms with
  | [] => None
  | (k, c) :: ms' => if bool_decide (k = model_id) then Some c
                     else models_get ms' model_id
  end.

(** [_validate_key_format(provider, key)].  [provider] is optional because
    [_get_provider] may hand over [None], [key] because [os.getenv] may. *)
Definition _validate_key_format `{Python} (prov : option str)
    (key : option str) : bool :=
  match key with
  | None | Some [] => false
  | Some k =>
      if bool_decide (prov = Some (lit "Google")) then
        startswith k (lit "AIzaSy")
      else if bool_decide (prov = Some (lit "OpenAI")) then
        startswith k (lit "sk-")
      else if bool_decide (prov = Some (lit "Anthropic")) then
        (length k =? 40)%nat && isalnum k
      else false
  end.

(** [_mask_key(key)] *)
Definition _mask_key (key : option str) : str :=
  match key with
  | None | Some [] => lit "Not set"
  | Some k => slice_to 4 k ++ lit "..." ++ slice_from_end 4 k
  end.

(** [_get_provider(key_env)] *)
Fixpoint get_provider_in (ms : list (str * ModelConfig)) (ke : str)
  : option str :=
  match ms with
  | [] => None
  | (_, c) :: ms' => if bool_decide (key_env c = ke) then Some (provider c)
                     else get_provider_in ms' ke
  end.

Definition _get_provider (ke : str) : option str := get_provider_in MODELS ke.

(** *** The world the manager acts on *)

(** Calls into a provider SDK: building a client, and one [ainvoke]. *)
Inductive NetEvent :=
| Construct (cls : LLMClass) (key_kwarg : str) (api_key : str)
    (model_name : str) (temperature : Z)
| Invoke (messages : list (str * str)).

(** The value a name has in a [.env] file, given as its bindings in line
    order: that of its last binding. *)
Fixpoint file_get (f : list (str * str)) (k : str) : option str :=
  match f with
  | [] => None
  | (k', v) :: f' =>
      match file_get f' k with
      | Some x => Some x
      | None => if bool_decide (k' = k) then Some v else None
      end
  end.

#[global] Instance file_lookup : Lookup str str (list (str * str)) :=
  fun k f => file_get f k.

(** Whether the file has a binding of the name. *)
Definition file_binds (k : str) (f : list (str * str)) : bool :=
  existsb (fun b => bool_decide (fst b = k)) f.

(** The file after [set_key]: every binding of the name is rewritten in
    place; a name the file does not bind is appended. *)
Definition file_set (k v : str) (f : list (str * str)) : list (str * str) :=
  if file_binds k f then
    map (fun b => if bool_decide (fst b = k) then (k, v) else b) f
  else f ++ [(k, v)].

(** [d[k] = v] on a dictionary kept as its items in insertion order: a key
    already there keeps its place. *)
Definition dict_set (k v : str) (d : list (str * str)) : list (str * str) :=
  file_set k v d.

(** [env.update(items)]: the assignments [env[k] = v], in order. *)
Definition update_all (items : list (str * str)) (env : gmap str str)
  : gmap str str :=
  fold_left (fun e b => <[fst b := snd b]> e) items env.

(** The values [load_dotenv(..., override=True)] reads, as the items of its
    dictionary: each binding, in line order, expanded in the environment
    updated with the values read before it. *)
Definition dotenv_values (env : gmap str str) (f : list (str * str))
  : list (str * str) :=
  fold_left (fun new_values b =>
               dict_set (fst b) (expand (update_all new_values env) (snd b))
                 new_values)
            f [].

Record World := {
  environ : gmap str str;          (* os.environ *)
  dotenv : list (str * str);       (* the .env file, in line order *)
  output : list Output;            (* oldest first *)
  network : list NetEvent;         (* oldest first *)
  writes : list (str * str)        (* every set_key call, oldest first *)
}.

Definition with_output (f : list Output -> list Output) (w : World) : World :=
  {| environ := environ w; dotenv := dotenv w; output := f (output w);
     network := network w; writes := writes w |}.

Definition with_network (h : list NetEvent) (w : World) : World :=
  {| environ := environ w; dotenv := dotenv w; output := output w;
     network := h; writes := writes w |}.

Definition with_writes (ws : list (str * str)) (w : World) : World :=
  {| environ := environ w; dotenv := dotenv w; output := output w;
     network := network w; writes := ws |}.

Definition with_dotenv (d : list (str * str)) (w : World) : World :=
  {| environ := environ w; dotenv := d; output := output w;
     network := network w; writes := writes w |}.

Definition with_environ (e : gmap str str) (w : World) : World :=
  {| environ := e; dotenv := dotenv w; output := output w;
     network := network w; writes := writes w |}.

(** The provider SDKs and the file system answer from the history of the
    calls made so far, the current call included. *)
Class Externals := {
  client_init : list NetEvent -> option exn;      (* [Some e]: raises [e] *)
  client_ainvoke : list NetEvent -> outcome str;  (* [str(response.content)] *)
  lock_io : list (str * str) -> option exn;       (* acquiring [.env.lock] *)
  set_key_io : list (str * str) -> option exn;
  load_dotenv_io : list (str * str) -> option (exn * nat)
    (* [Some (e, n)]: raises [e] with [n] variables already set *)
}.

(** The world after one more line of output. *)
Definition log_line (o : Output) (w : World) : World :=
  with_output (fun out => out ++ [o]) w.

Definition emit (o : Output) : M World unit := modify (log_line o).

Definition print (s : str) : M World unit := emit (Print s).

Definition logger_error (s : str) : M World unit := emit (LogError s).

(** [os.getenv(name)] *)
Definition getenv (k : str) : M World (option str) :=
  gets (fun w => environ w !! k).

(** [set_key(dotenv_path, key, value)]: the lines that bind the name are
    rewritten, or one is appended.  The file is kept as the bindings a parse
    of it yields; the value is kept as given, the quotes [set_key] writes
    around it and the parser's reading of them being taken to cancel out (as
    they do for a value without backslash or carriage return). *)
Definition set_key `{Externals} (k v : str) : M World unit :=
  fun w =>
    let ws := writes w ++ [(k, v)] in
    match set_key_io ws with
    | Some e => (Raise e, with_writes ws w)
    | None => (Return tt, with_dotenv (file_set k v (dotenv w)) (with_writes ws w))
    end.

(** [load_dotenv(dotenv_path, override=True)]: the values read from the
    file are assigned to the variables of their names, one after the other.
    An exception while reading leaves the environment alone; one raised by
    an assignment leaves the assignments made before it in place. *)
Definition load_dotenv_override `{Externals} : M World unit :=
  fun w =>
    let items := dotenv_values (environ w) (dotenv w) in
    match load_dotenv_io (writes w) with
    | Some (e, n) =>
        (Raise e, with_environ (update_all (take n items) (environ w)) w)
    | None => (Return tt, with_environ (update_all items (environ w)) w)
    end.

(** Entering [with cls._env_lock:].  Acquiring the file lock may raise;
    it is entered before the [try], so that exception leaves the function.
    Leaving the block releases the lock on every path, which a single
    caller cannot observe. *)
Definition acquire_env_lock `{Externals} : M World unit :=
  fun w =>
    match lock_io (writes w) with
    | Some e => (Raise e, w)
    | None => (Return tt, w)
    end.

(** [_update_env_safely(key_env, new_key)] *)
Definition _update_env_safely `{Python} `{Externals} (ke new_key : str)
  : M World bool :=
  acquire_env_lock ;;
  try_except
    (set_key ke (strip new_key) ;;
     load_dotenv_override ;;
     ret true)
    (fun e =>
       logger_error (lit "Error updating environment: " ++ str_of_exn e) ;;
       ret false).

(** [_revert_key_safely(key_env, old_key)] *)
Definition _revert_key_safely `{Python} `{Externals} (ke : str)
    (old_key : option str) : M World unit :=
  if truthy old_key && _validate_key_format (_get_provider ke) old_key then
    _update_env_safely ke (default [] old_key) ;; ret tt
  else
    _update_env_safely ke [] ;; ret tt.

Definition prompt_text : str :=
  lit "Respond with exactly 'OK' and nothing else".

Definition probe_messages : list (str * str) := [(lit "user", prompt_text)].

(** The constructor call [verify_api_key] makes for [config]: the keyword
    that carries the key depends on the provider, the temperature is [0]. *)
Definition probe_client (config : ModelConfig) (api_key : str) : NetEvent :=
  if bool_decide (provider config = lit "Google") then
    Construct (class config) (lit "google_api_key") api_key (model config) 0
  else if bool_decide (provider config = lit "Anthropic") then
    Construct (class config) (lit "anthropic_api_key") api_key (model config) 0
  else
    Construct (class config) (lit "api_key") api_key (model config) 0.

(** [llm = config["class"](..., model=config["model"], temperature=0)] *)
Definition new_client `{Externals} (config : ModelConfig) (api_key : str)
  : M World unit :=
  fun w =>
    let h := network w ++ [probe_client config api_key] in
    match client_init h with
    | Some e => (Raise e, with_network h w)
    | None => (Return tt, with_network h w)
    end.

(** [str((await llm.ainvoke(messages)).content)] *)
Definition ainvoke `{Externals} (messages : list (str * str)) : M World str :=
  fun w =>
    let h := network w ++ [Invoke messages] in
    (client_ainvoke h, with_network h w).

(** [verify_api_key(model_id)] *)
Definition verify_api_key `{Python} `{Externals} (model_id : str)
  : M World (bool * str) :=
  try_except
    (config <- match models_get MODELS model_id with
               | Some c => ret c
               | None => raise (KeyError model_id)
               end ;;
     api_key <- getenv (key_env config) ;;
     if negb (truthy api_key) then
       ret (false, lit "No API key found")
     else if negb (_validate_key_format (Some (provider config)) api_key) then
       ret (false, cross ++ lit " Invalid " ++ provider config
                     ++ lit " API key format")
     else
       initialised <-
         try_except
           (new_client config (default [] api_key) ;; ret None)
           (fun e =>
              logger_error (lit "Error initializing LLM for verification: "
                              ++ str_of_exn e) ;;
              ret (Some (false, cross ++ lit " Error initializing LLM: "
                                  ++ str_of_exn e))) ;;
       match initialised with
       | Some early => ret early
       | None =>
           try_except
             (content <- ainvoke probe_messages ;;
              if contains content (lit "OK") then
                ret (true, check_mark ++ lit " API key verified successfully")
              else
                ret (false, cross ++ lit
                       " API key verification failed: Unexpected response"))
             (fun e =>
                logger_error (lit "API Key verification request failed: "
                                ++ str_of_exn e) ;;
                ret (false, cross ++ lit " API key verification failed: "
                              ++ str_of_exn e))
       end)
    (fun e =>
       logger_error (lit "Error during key verification process: "
                       ++ str_of_exn e) ;;
       ret (false, cross ++ lit " API key verification process error: "
                     ++ str_of_exn e)).

(** The first loop of [list_models]: one status per registered model. *)
Fixpoint verify_models `{Python} `{Externals} (ms : list (str * ModelConfig))
  : M World (list (str * bool)) :=
  match ms with
  | [] => ret []
  | (id, m) :: ms' =>
      k <- getenv (key_env m) ;;
      st <- (if truthy k then
               r <- verify_api_key id ;;
               (if fst r then ret tt
                else print (lit "Warning: " ++ name m ++ lit " - " ++ snd r)) ;;
               ret (fst r)
             else ret false) ;;
      rest <- verify_models ms' ;;
      ret ((id, st) :: rest)
  end.

(** [model_statuses[id]]; every registered id has an entry. *)
Fixpoint statuses_get (statuses : list (str * bool)) (id : str) : bool :=
  match statuses with
  | [] => false
  | (k, b) :: rest => if bool_decide (k = id) then b else statuses_get rest id
  end.

(** The second loop of [list_models]: one line per registered model. *)
Fixpoint print_models (statuses : list (str * bool))
    (ms : list (str * ModelConfig)) : M World unit :=
  match ms with
  | [] => ret tt
  | (id, m) :: ms' =>
      let key_status := if statuses_get statuses id then check_mark else cross in
      let status_display :=
        if statuses_get statuses id then key_status
        else cross ++ lit " (Key Missing/Invalid)" in
      print (id ++ lit ". " ++ name m ++ lit " (" ++ provider m ++ lit ") "
               ++ status_display) ;;
      print_models statuses ms'
  end.

(** [list_models()] *)
Definition list_models `{Python} `{Externals} : M World (list (str * bool)) :=
  print (nl ++ lit "Verifying API keys...") ;;
  model_statuses <- verify_models MODELS ;;
  print (nl ++ lit "Available AI Models:") ;;
  print (lit "----") ;;
  print_models model_statuses MODELS ;;
  ret model_statuses.

(** [add_update_api_key()].  The two [input()] answers are the arguments;
    the second one is read only once the model selection is accepted. *)
Definition add_update_api_key `{Python} `{Externals} (answer_id answer_key : str)
  : M World unit :=
  list_models ;;
  emit (Prompt (nl ++ lit "Select model number to add/update API key: ")) ;;
  let model_id := strip answer_id in
  match models_get MODELS model_id with
  | None => print (cross ++ lit " Invalid model selection")
  | Some m =>
      current_key <- getenv (key_env m) ;;
      print (nl ++ lit "Current API key for " ++ name m ++ lit ": "
               ++ _mask_key current_key) ;;
      emit (Prompt (lit "Enter new API key for " ++ name m
                      ++ lit " (press Enter to keep current): ")) ;;
      let new_key := strip answer_key in
      if truthy (Some new_key) then
        if negb (_validate_key_format (Some (provider m)) (Some new_key)) then
          print (cross ++ lit " Invalid " ++ provider m
                   ++ lit " API key format. Please check the format.")
        else
          try_except
            (let current_key_backup := current_key in
             updated <- _update_env_safely (key_env m) new_key ;;
             if (updated : bool) then
               print (nl ++ lit "Testing API key for " ++ name m ++ lit "...") ;;
               r <- verify_api_key model_id ;;
               print (snd r) ;;
               if negb (fst r) then
                 print (warning_sign ++ lit
                          " Verification failed. Reverting to previous API key for "
                          ++ name m ++ lit ".") ;;
                 _revert_key_safely (key_env m) current_key_backup
               else
                 print (check_mark ++ lit " API key for " ++ name m
                          ++ lit " updated and verified successfully.")
             else
               print (cross ++ lit " Failed to update API key for " ++ name m
                        ++ lit "."))
            (fun e =>
               logger_error (lit "Error in add_update_api_key: " ++ str_of_exn e) ;;
               print (cross ++ lit " Error updating API key: " ++ str_of_exn e))
      else
        print (info_sign ++ lit " No changes made to API key.")
  end.

(** [check_api_key(model_id)], reading the environment of [w]. *)
Definition check_api_key `{Python} (w : World) (model_id : str) : bool :=
  match models_get MODELS model_id with
  | None => false
  | Some config =>
      let api_key := environ w !! key_env config in
      if negb (truthy api_key) then false
      else _validate_key_format (Some (provider config)) api_key
  end.

(** *** Observations on worlds *)

(** The secret store of [w'] is that of [w]: same environment, same file,
    no further write attempted. *)
Definition store_unchanged (w w' : World) : Prop :=
  environ w' = environ w /\ dotenv w' = dotenv w /\ writes w' = writes w.

(** An operation that returns normally and leaves the store alone. *)
Definition quiet {A} (m : M World A) : Prop :=
  forall w, (exists a, fst (m w) = Return a) /\ store_unchanged w (snd (m w)).

(** Two worlds that differ at most in what has been printed and logged. *)
Definition agree (w w' : World) : Prop :=
  environ w = environ w' /\ dotenv w = dotenv w'
  /\ network w = network w' /\ writes w = writes w'.

(** Terminal output, as opposed to log records. *)
Definition is_terminal (o : Output) : bool :=
  match o with
  | Print _ | Prompt _ => true
  | LogError _ | LogInfo _ => false
  end.

(** *** Stand-ins for the collaborators, for running the model *)

(** A provider that answers every probe with [reply]; the disk never fails. *)
Definition answering (reply : str) : Externals :=
  {| client_init := fun _ => None;
     client_ainvoke := fun _ => Return reply;
     lock_io := fun _ => None;
     set_key_io := fun _ => None;
     load_dotenv_io := fun _ => None |}.

(** As [answering], but [set_key] raises from the second write on. *)
Definition disk_fails_after_first_write (reply : str) : Externals :=
  {| client_init := fun _ => None;
     client_ainvoke := fun _ => Return reply;
     lock_io := fun _ => None;
     set_key_io := fun ws =>
       if (1 <? length ws)%nat then Some (Exception (lit "disk full")) else None;
     load_dotenv_io := fun _ => None |}.

(** A process whose environment is [e], before anything has happened. *)
Definition fresh (e : gmap str str) : World :=
  {| environ := e; dotenv := []; output := []; network := []; writes := [] |}.

(** *** Removing a key *)

(** [remove_api_key()].  The two [input()] answers are the arguments; the
    confirmation is read only when the selected model has a key set. *)
Definition remove_api_key `{Python} `{Casing} `{Externals}
    (answer_id answer_confirm : str) : M World unit :=
  list_models ;;
  emit (Prompt (nl ++ lit "Select model number to remove API key: ")) ;;
  let model_id := strip answer_id in
  match models_get MODELS model_id with
  | None => print (cross ++ lit " Invalid model selection")
  | Some m =>
      k <- getenv (key_env m) ;;
      if truthy k then
        emit (Prompt (warning_sign
                        ++ lit " Are you sure you want to remove the API key for "
                        ++ name m ++ lit "? (yes/no): ")) ;;
        let confirm_remove := lower (strip answer_confirm) in
        if bool_decide (confirm_remove = lit "yes") then
          try_except
            (removed <- _update_env_safely (key_env m) [] ;;
             if (removed : bool) then
               print (nl ++ check_mark ++ lit " API key for " ++ name m
                        ++ lit " removed successfully.")
             else
               print (cross ++ lit " Failed to remove API key for " ++ name m
                        ++ lit "."))
            (fun e =>
               logger_error (lit "Error in remove_api_key: " ++ str_of_exn e) ;;
               print (cross ++ lit " Error removing API key: " ++ str_of_exn e))
        else
          print (info_sign ++ lit " API key removal cancelled.")
      else
        print (info_sign ++ lit " No API key set for " ++ name m)
  end.

(** A provider that answers every probe with [reply], where reading the
    file back fails at the second variable. *)
Definition load_fails_at_second (reply : str) : Externals :=
  {| client_init := fun _ => None;
     client_ainvoke := fun _ => Return reply;
     lock_io := fun _ => None;
     set_key_io := fun _ => None;
     load_dotenv_io := fun _ =>
       Some (Exception (lit "embedded null byte"), 1%nat) |}.

(** A provider that answers every probe with [reply], where the lock file
    cannot be created. *)
Definition lock_unavailable (reply : str) : Externals :=
  {| client_init := fun _ => None;
     client_ainvoke := fun _ => Return reply;
     lock_io := fun _ => Some (Exception (lit "Permission denied"));
     set_key_io := fun _ => None;
     load_dotenv_io := fun _ => None |}.

(** A provider that answers every probe with [reply], on a disk where
    [set_key] always raises. *)
Definition read_only_disk (reply : str) : Externals :=
  {| client_init := fun _ => None;
     client_ainvoke := fun _ => Return reply;
     lock_io := fun _ => None;
     set_key_io := fun _ => Some (Exception (lit "read-only file system"));
     load_dotenv_io := fun _ => None |}.

End LLMManager.

(** ** BrowserAutomation *)

Module BrowserAutomation.

(** The identity of a [Browser] or [BrowserContext] object. *)
Definition Handle := nat.

Inductive DriverCall :=
| NewBrowser                      (* Browser() *)
| NewContext (b : Handle)         (* b.new_context() *)
| CloseContext (c : Handle)       (* c.close() *)
| CloseBrowser (b : Handle).      (* b.close() *)

(** A call and whether it returned ([true]) or raised ([false]). *)
Record DriverEvent := Called {
  call : DriverCall;
  returned : bool
}.

Record Session := {
  browser : option Handle;
  context : option Handle;
  calls : list DriverEvent;       (* oldest first *)
  log : list Output               (* oldest first *)
}.

(** The browser library answers from the calls made before. *)
Class Driver := {
  construct : list DriverEvent -> DriverCall -> outcome Handle;
  close : list DriverEvent -> DriverCall -> option exn
}.

(** [bool(h)] for a handle attribute: [None] is falsy, an object is truthy. *)
Definition is_set (h : option Handle) : bool :=
  match h with
  | Some _ => true
  | None => false
  end.

(** [__init__] *)
Definition __init__ : Session :=
  {| browser := None; context := None; calls := []; log := [] |}.

Definition set_browser (b : option Handle) : M Session unit :=
  modify (fun s => {| browser := b; context := context s;
                      calls := calls s; log := log s |}).

Definition set_context (c : option Handle) : M Session unit :=
  modify (fun s => {| browser := browser s; context := c;
                      calls := calls s; log := log s |}).

Definition record (ev : DriverEvent) (s : Session) : Session :=
  {| browser := browser s; context := context s;
     calls := calls s ++ [ev]; log := log s |}.

Definition logger (o : Output) : M Session unit :=
  modify (fun s => {| browser := browser s; context := context s;
                      calls := calls s; log := log s ++ [o] |}).

Definition call_construct `{Driver} (c : DriverCall) : M Session Handle :=
  fun s =>
    match construct (calls s) c with
    | Return h => (Return h, record (Called c true) s)
    | Raise e => (Raise e, record (Called c false) s)
    end.

Definition call_close `{Driver} (c : DriverCall) : M Session unit :=
  fun s =>
    match close (calls s) c with
    | None => (Return tt, record (Called c true) s)
    | Some e => (Raise e, record (Called c false) s)
    end.

(** [initialize()] *)
Definition initialize `{Python} `{Driver} : M Session unit :=
  b0 <- gets browser ;;
  c0 <- gets context ;;
  if is_set b0 && is_set c0 then ret tt
  else
    try_except
      ((if is_set b0 then ret tt
        else h <- call_construct NewBrowser ;; set_browser (Some h)) ;;
       (if is_set c0 then ret tt
        else
          b <- gets browser ;;
          match b with
          | Some bh => h <- call_construct (NewContext bh) ;; set_context (Some h)
          | None => raise (Exception (lit "'NoneType' object has no attribute 'new_context'"))
          end) ;;
       logger (LogInfo (lit "Browser and context initialized successfully")))
      (fun e =>
         logger (LogError (lit "Error initializing browser: " ++ str_of_exn e)) ;;
         raise e).

(** [cleanup()] *)
Definition cleanup `{Python} `{Driver} : M Session unit :=
  try_except
    (c <- gets context ;;
     match c with
     | Some ch => call_close (CloseContext ch) ;; set_context None
     | None => ret tt
     end ;;
     b <- gets browser ;;
     match b with
     | Some bh => call_close (CloseBrowser bh) ;; set_browser None
     | None => ret tt
     end ;;
     logger (LogInfo (lit "Browser resources cleaned up")))
    (fun e =>
       logger (LogError (lit "Error during browser cleanup: " ++ str_of_exn e))).

(** [n] calls of [initialize] in a row; a call that raises does not stop the
    caller from calling again. *)
Fixpoint initialize_times `{Python} `{Driver} (n : nat) (s : Session)
  : Session :=
  match n with
  | O => s
  | S n' => initialize_times n' (snd (initialize s))
  end.

(** How many of the calls in [evs] are constructor calls, selected by
    [is_ctor], that returned an object. *)
Definition built (is_ctor : DriverCall -> bool) (evs : list DriverEvent) : nat :=
  length (List.filter (fun ev => is_ctor (call ev) && returned ev) evs).

Definition is_new_browser (c : DriverCall) : bool :=
  match c with NewBrowser => true | _ => false end.

Definition is_new_context (c : DriverCall) : bool :=
  match c with NewContext _ => true | _ => false end.

(** [1] for a handle that is set, [0] for [None]. *)
Definition handle_count (h : option Handle) : nat :=
  match h with
  | Some _ => 1
  | None => 0
  end.

(** The handles that are set were built once, and nothing else was built. *)
Definition built_once (s : Session) : Prop :=
  built is_new_browser (calls s) = handle_count (browser s)
  /\ built is_new_context (calls s) = handle_count (context s).

(** *** Stand-ins for the browser library *)

(** Every construction returns a handle numbered after the call; [close]
    never raises. *)
Definition healthy : Driver :=
  {| construct := fun evs _ => Return (length evs);
     close := fun _ _ => None |}.

(** [Browser()] works, [new_context()] raises. *)
Definition no_context : Driver :=
  {| construct := fun evs c =>
       match c with
       | NewBrowser => Return (length evs)
       | _ => Raise (Exception (lit "Target closed"))
       end;
     close := fun _ _ => None |}.

(** Closing a context raises; closing a browser works. *)
Definition stuck_context : Driver :=
  {| construct := fun evs _ => Return (length evs);
     close := fun _ c =>
       match c with
       | CloseContext _ => Some (Exception (lit "Target closed"))
       | _ => None
       end |}.

(** A call that builds an object, as opposed to one that closes it. *)
Definition is_constructor (c : DriverCall) : bool :=
  is_new_browser c || is_new_context c.

End BrowserAutomation.

(** ** Running a task: [LLMManager.get_llm] and [BrowserAutomation.run_task] *)

Module Tasks.
Import LLMManager BrowserAutomation.

(** A client built for running tasks:
    [config["class"](<key keyword>=api_key, model=config["model"])]. *)
Record TaskClient := {
  client_class : LLMClass;
  client_kwarg : str;
  client_key : str;
  client_model : str
}.

(** Calls into the agent library. *)
Inductive AgentEvent :=
| AgentNew (task : str) (llm : TaskClient) (b c : option Handle)
| AgentRun.

(** The whole program: the manager's world, the [BrowserAutomation] object,
    the clients and agents built for tasks, and the [asyncio.Queue] objects
    by identity. *)
Record App := {
  world : World;
  session : Session;
  clients : list TaskClient;      (* oldest first *)
  agents : list AgentEvent;       (* oldest first *)
  queues : gmap nat (list str)    (* contents, oldest first *)
}.

(** The provider SDK constructors, the agent library and the file system
    answer from the calls made so far, the current call included. *)
Class Collaborators := {
  task_client_init : list TaskClient -> option exn;
  agent_init : list AgentEvent -> option exn;
  agent_run : list AgentEvent -> option exn;
  path_exists : list AgentEvent -> str -> bool;
  getcwd : str
}.

Definition with_world (w : World) (a : App) : App :=
  {| world := w; session := session a; clients := clients a;
     agents := agents a; queues := queues a |}.

Definition with_session (s : Session) (a : App) : App :=
  {| world := world a; session := s; clients := clients a;
     agents := agents a; queues := queues a |}.

Definition with_clients (cs : list TaskClient) (a : App) : App :=
  {| world := world a; session := session a; clients := cs;
     agents := agents a; queues := queues a |}.

Definition with_agents (evs : list AgentEvent) (a : App) : App :=
  {| world := world a; session := session a; clients := clients a;
     agents := evs; queues := queues a |}.

Definition with_queues (qs : gmap nat (list str)) (a : App) : App :=
  {| world := world a; session := session a; clients := clients a;
     agents := agents a; queues := qs |}.

(** An operation of the manager, run in the program. *)
Definition in_world {A} (m : M World A) : M App A :=
  fun a => (fst (m (world a)), with_world (snd (m (world a))) a).

(** A method of the [BrowserAutomation] object, run in the program. *)
Definition in_session {A} (m : M Session A) : M App A :=
  fun a => (fst (m (session a)), with_session (snd (m (session a))) a).

Definition logger_info (s : str) : M App unit := in_world (emit (LogInfo s)).

(** The constructor call [get_llm] makes for [config]. *)
Definition task_client (config : ModelConfig) (api_key : str) : TaskClient :=
  if bool_decide (provider config = lit "Google") then
    {| client_class := class config; client_kwarg := lit "google_api_key";
       client_key := api_key; client_model := model config |}
  else if bool_decide (provider config = lit "Anthropic") then
    {| client_class := class config; client_kwarg := lit "anthropic_api_key";
       client_key := api_key; client_model := model config |}
  else
    {| client_class := class config; client_kwarg := lit "api_key";
       client_key := api_key; client_model := model config |}.

Definition build_client `{Collaborators} (c : TaskClient) : M App TaskClient :=
  fun a =>
    let h := clients a ++ [c] in
    match task_client_init h with
    | Some e => (Raise e, with_clients h a)
    | None => (Return c, with_clients h a)
    end.

(** [LLMManager.get_llm(model_id)]; a [ValueError] is an exception with its
    message. *)
Definition get_llm `{Python} `{Collaborators} (model_id : str)
  : M App TaskClient :=
  match models_get MODELS model_id with
  | None => raise (Exception (lit "Invalid model ID: " ++ model_id))
  | Some config =>
      api_key <- in_world (getenv (key_env config)) ;;
      if negb (truthy api_key) then
        raise (Exception (lit "No API key found for " ++ name config))
      else if negb (_validate_key_format (Some (provider config)) api_key) then
        raise (Exception (lit "Invalid " ++ provider config
                            ++ lit " API key format"))
      else
        try_except
          (build_client (task_client config (default [] api_key)))
          (fun e =>
             in_world (logger_error (lit "Error initializing " ++ name config
                                       ++ lit ": " ++ str_of_exn e)) ;;
             raise e)
  end.

(** [Agent(task=task, llm=llm, browser=self.browser,
    browser_context=self.context)] *)
Definition new_agent `{Collaborators} (task : str) (llm : TaskClient)
  : M App unit :=
  fun a =>
    let h := agents a
             ++ [AgentNew task llm (browser (session a)) (context (session a))] in
    match agent_init h with
    | Some e => (Raise e, with_agents h a)
    | None => (Return tt, with_agents h a)
    end.

(** [await agent.run()] *)
Definition run_agent `{Collaborators} : M App unit :=
  fun a =>
    let h := agents a ++ [AgentRun] in
    match agent_run h with
    | Some e => (Raise e, with_agents h a)
    | None => (Return tt, with_agents h a)
    end.

(** The queues after [x] was appended to queue [q]. *)
Definition enqueue (q : nat) (x : str) (qs : gmap nat (list str))
  : gmap nat (list str) :=
  <[q := default [] (qs !! q) ++ [x]]> qs.

(** [await q.put(x)] on an unbounded queue. *)
Definition queue_put (q : nat) (x : str) : M App unit :=
  modify (fun a => with_queues (enqueue q x (queues a)) a).

(** Where the recording of a run is looked for. *)
Definition gif_path `{Collaborators} : str :=
  path_join getcwd (lit "agent_history.gif").

(** What a completed run adds to the two queues it was given. *)
Definition delivered `{Collaborators} (message_queue screenshot_queue : option nat)
    (found : bool) (qs : gmap nat (list str)) : gmap nat (list str) :=
  let qs' := match message_queue with
             | Some q => enqueue q (lit "Task executed successfully") qs
             | None => qs
             end in
  match screenshot_queue with
  | Some q => if found then enqueue q gif_path qs' else qs'
  | None => qs'
  end.

(** [LLMManager.MODELS[model_id]['name']] *)
Definition model_name (model_id : str) : M App str :=
  match models_get MODELS model_id with
  | Some config => ret (name config)
  | None => raise (KeyError model_id)
  end.

(** [run_task(task, model_id, message_queue, screenshot_queue)]; a queue
    argument is [None] or the identity of a queue object, which is truthy. *)
Definition run_task `{Python} `{Driver} `{Collaborators} (task model_id : str)
    (message_queue screenshot_queue : option nat) : M App unit :=
  try_except
    (in_session initialize ;;
     llm <- get_llm model_id ;;
     new_agent task llm ;;
     shown <- model_name model_id ;;
     logger_info (lit "Starting task execution with " ++ shown) ;;
     run_agent ;;
     match message_queue with
     | Some q => queue_put q (lit "Task executed successfully")
     | None => ret tt
     end ;;
     found <- gets (fun a => path_exists (agents a) gif_path) ;;
     match screenshot_queue with
     | Some q => if (found : bool) then queue_put q gif_path else ret tt
     | None => ret tt
     end ;;
     logger_info (lit "Task completed successfully"))
    (fun e =>
       in_world (logger_error (lit "Error during task execution: "
                                 ++ str_of_exn e)) ;;
       raise e).

(** The message of the [ValueError] with which [get_llm] turns down a
    model whose key is not usable: unknown identifier first, then missing
    key, then format. *)
Definition refusal (model_id : str) (a : App) : str :=
  match models_get MODELS model_id with
  | None => lit "Invalid model ID: " ++ model_id
  | Some config =>
      if truthy (environ (world a) !! key_env config)
      then lit "Invalid " ++ provider config ++ lit " API key format"
      else lit "No API key found for " ++ name config
  end.

(** Tasks run one after the other, each with its own arguments; as in the
    menu loop, an exception ends that task only. *)
Fixpoint run_tasks `{Python} `{Driver} `{Collaborators}
    (ts : list (str * str * option nat * option nat)) (a : App) : App :=
  match ts with
  | [] => a
  | (task, model_id, mq, sq) :: ts' =>
      run_tasks ts' (snd (run_task task model_id mq sq a))
  end.

(** The program at start-up, in the environment [e]. *)
Definition boot (e : gmap str str) : App :=
  {| world := fresh e; session := __init__; clients := []; agents := [];
     queues := ∅ |}.

(** Collaborators that never fail; the recording exists iff [gif] is set. *)
Definition cooperative (gif : bool) : Collaborators :=
  {| task_client_init := fun _ => None;
     agent_init := fun _ => None;
     agent_run := fun _ => None;
     path_exists := fun _ _ => gif;
     getcwd := lit "/home/user/app" |}.

(** Collaborators whose agent raises while running. *)
Definition failing_agent : Collaborators :=
  {| task_client_init := fun _ => None;
     agent_init := fun _ => None;
     agent_run := fun _ => Some (Exception (lit "Navigation timeout"));
     path_exists := fun _ _ => false;
     getcwd := lit "/home/user/app" |}.

End Tasks.

(** * Properties *)

Lemma startswith_spec (s p : str) :
  startswith s p = true <-> exists rest, s = p ++ rest.
Proof.
  revert s. induction p as [|c p IH]; intros s; simpl.
  - split; [intros _; by exists s | done].
  - destruct s as [|d s]; simpl.
    + split; [done | intros [rest Hr]; discriminate].
    + rewrite andb_true_iff, N.eqb_eq, IH. split.
      * intros [-> [rest ->]]. by exists rest.
      * intros [rest Hr]. injection Hr as -> ->. eauto.
Qed.

Lemma contains_spec (s p : str) :
  contains s p = true <-> exists pre post, s = pre ++ p ++ post.
Proof.
  induction s as [|d s IH]; simpl.
  - rewrite orb_false_r, startswith_spec. split.
    + intros [rest ->]. by exists [], rest.
    + intros [pre [post Hs]]. symmetry in Hs.
      apply app_eq_nil in Hs as [-> Hs]. exists post. by rewrite Hs.
  - rewrite orb_true_iff, startswith_spec, IH. split.
    + intros [[rest ->] | [pre [post ->]]].
      * by exists [], rest.
      * by exists (d :: pre), post.
    + intros [[|c pre] [post Hs]]; simpl in Hs.
      * left. by exists post.
      * right. injection Hs as -> ->. by exists pre, post.
Qed.

Lemma isalnum_spec `{Python} (s : str) :
  isalnum s = true <-> s <> [] /\ Forall (fun c => isalnum_char c = true) s.
Proof.
  destruct s as [|c s].
  - simpl. split; [done | intros [? _]; done].
  - unfold isalnum. rewrite forallb_forall, Forall_forall. split.
    + intros Hs. split; [done |]. intros x Hx. apply Hs. by apply list_elem_of_In.
    + intros [_ Hs] x Hx. apply Hs. by apply list_elem_of_In.
Qed.

(** *** Variable references *)

Lemma expand_fuel_nil (n : nat) (env : gmap str str) : expand_fuel n env [] = [].
Proof. by destruct n. Qed.

Lemma break_shorter (stop : N -> bool) (s : str) :
  (length (snd (break stop s)) <= length s)%nat.
Proof.
  induction s as [|c s IH]; simpl; [done |].
  destruct (stop c); simpl; lia.
Qed.

Lemma reference_shorter (s name rest : str) (dflt : option str) :
  reference s = Some (name, dflt, rest) -> (length rest < length s)%nat.
Proof.
  unfold reference.
  pose proof (break_shorter (fun c => (c =? 125) || (c =? 58)) s) as Hb.
  destruct (snd (break _ s)) as [|c1 r1]; [done |]. simpl in Hb.
  destruct (c1 =? 125); [intros [= _ _ <-]; lia |].
  destruct r1 as [|c2 r2]; [done |]. simpl in Hb.
  destruct (c2 =? 45); [| done].
  pose proof (break_shorter (fun c => c =? 125) r2) as Hb2.
  destruct (snd (break _ r2)) as [|c3 r3]; [done |]. simpl in Hb2.
  intros [= _ _ <-]. lia.
Qed.

(** The scan never needs more fuel than the text has characters. *)
Lemma expand_fuel_enough (n m : nat) (env : gmap str str) (s : str) :
  (length s <= n)%nat -> (length s <= m)%nat ->
  expand_fuel n env s = expand_fuel m env s.
Proof.
  revert m s. induction n as [|n IH]; intros m s Hn Hm.
  - destruct s; [| simpl in Hn; lia]. by rewrite !expand_fuel_nil.
  - destruct s as [|c s]; [by rewrite !expand_fuel_nil |].
    destruct m as [|m]; [simpl in Hm; lia |]. simpl in Hn, Hm. simpl.
    destruct (c =? 36).
    + destruct s as [|b s]; [by rewrite !expand_fuel_nil |]. simpl in Hn, Hm.
      destruct (b =? 123).
      * destruct (reference s) as [[[name dflt] rest]|] eqn:Hr.
        -- apply reference_shorter in Hr. f_equal. apply IH; lia.
        -- f_equal. apply IH; simpl; lia.
      * f_equal. apply IH; simpl; lia.
    + f_equal. apply IH; lia.
Qed.

(** A character other than [$] is kept. *)
Lemma expand_cons (env : gmap str str) (c : N) (s : str) :
  c <> 36 -> expand env (c :: s) = c :: expand env s.
Proof.
  intros Hc. unfold expand. simpl.
  by destruct (N.eqb_spec c 36).
Qed.

(** So is a prefix without [$]. *)
Lemma expand_app (env : gmap str str) (p s : str) :
  Forall (fun c => c <> 36) p -> expand env (p ++ s) = p ++ expand env s.
Proof.
  induction 1 as [|c p Hc _ IH]; [done |]. simpl.
  by rewrite expand_cons, IH.
Qed.

Lemma expand_no_dollar (env : gmap str str) (s : str) :
  Forall (fun c => c <> 36) s -> expand env s = s.
Proof.
  intros Hs. rewrite <- (app_nil_r s) at 1. rewrite expand_app by done.
  by rewrite app_nil_r.
Qed.

Lemma verbatim_spec (s : str) :
  verbatim s = true <-> Forall (fun c => c <> 36 /\ c <> 92 /\ c <> 13) s.
Proof.
  unfold verbatim. rewrite forallb_forall, Forall_forall. split.
  - intros Hs c Hc. apply list_elem_of_In, Hs in Hc.
    rewrite negb_true_iff, !orb_false_iff, !N.eqb_neq in Hc. tauto.
  - intros Hs c Hc. apply list_elem_of_In, Hs in Hc.
    rewrite negb_true_iff, !orb_false_iff, !N.eqb_neq. tauto.
Qed.

(** A [verbatim] value is read back as it was written. *)
Lemma expand_verbatim (env : gmap str str) (s : str) :
  verbatim s = true -> expand env s = s.
Proof.
  intros Hs%verbatim_spec. apply expand_no_dollar.
  eapply Forall_impl; [exact Hs |]. by intros c (? & _).
Qed.

Lemma lstrip_suffix (s : str) : exists a, s = a ++ lstrip s.
Proof.
  induction s as [|c s [a IH]]; [by exists [] |]. simpl.
  destruct (isspace c); [| by exists []].
  exists (c :: a). simpl. by rewrite <- IH.
Qed.

Lemma strip_infix (s : str) : exists a b, s = a ++ strip s ++ b.
Proof.
  destruct (lstrip_suffix s) as [a Ha].
  destruct (lstrip_suffix (rev (lstrip s))) as [b Hb].
  exists a, (rev b). unfold strip, rstrip. rewrite <- rev_app_distr, <- Hb.
  by rewrite rev_involutive.
Qed.

Lemma verbatim_strip (s : str) : verbatim s = true -> verbatim (strip s) = true.
Proof.
  rewrite !verbatim_spec. destruct (strip_infix s) as (a & b & Hs).
  rewrite Hs at 1. rewrite !Forall_app. tauto.
Qed.

Module LLMManagerSpec.
Import LLMManager.

Lemma validate_google `{Python} (k : str) :
  _validate_key_format (Some (lit "Google")) (Some k)
  = startswith k (lit "AIzaSy").
Proof. by destruct k. Qed.

Lemma validate_openai `{Python} (k : str) :
  _validate_key_format (Some (lit "OpenAI")) (Some k)
  = startswith k (lit "sk-").
Proof. by destruct k. Qed.

Lemma validate_anthropic `{Python} (k : str) :
  _validate_key_format (Some (lit "Anthropic")) (Some k)
  = (length k =? 40)%nat && isalnum k.
Proof. by destruct k. Qed.

(** C2: [_validate_key_format] follows the provider rules exactly: a
    "Google" key is valid iff it starts with "AIzaSy", an "OpenAI" key iff it
    starts with "sk-", an "Anthropic" key iff it has 40 characters, all of
    them alphanumeric; any other provider, and an empty or absent key, is
    invalid. *)
Theorem validate_key_format_rules `{Python} :
  (forall k : str, _validate_key_format (Some (lit "Google")) (Some k) = true
                   <-> exists rest, k = lit "AIzaSy" ++ rest)
  /\ (forall k : str, _validate_key_format (Some (lit "OpenAI")) (Some k) = true
                      <-> exists rest, k = lit "sk-" ++ rest)
  /\ (forall k : str, _validate_key_format (Some (lit "Anthropic")) (Some k) = true
                      <-> length k = 40%nat
                          /\ Forall (fun c => isalnum_char c = true) k)
  /\ (forall (p : option str) (k : option str),
        _validate_key_format p k = false
        \/ p = Some (lit "Google") \/ p = Some (lit "OpenAI")
        \/ p = Some (lit "Anthropic"))
  /\ (forall p : option str,
        _validate_key_format p None = false
        /\ _validate_key_format p (Some []) = false).
Proof.
  split; [| split; [| split; [| split]]].
  - intros k. by rewrite validate_google, startswith_spec.
  - intros k. by rewrite validate_openai, startswith_spec.
  - intros k. rewrite validate_anthropic, andb_true_iff, Nat.eqb_eq, isalnum_spec.
    split; [tauto |]. intros [Hl Ha]. repeat split; [done | | done].
    intros ->. discriminate.
  - intros p k. unfold _validate_key_format.
    destruct k as [[|c k]|]; [by left | | by left].
    repeat case_bool_decide; auto.
  - done.
Qed.

Lemma validate_key_format_rules_witness :
  @_validate_key_format ascii_runtime (Some (lit "Google"))
    (Some (lit "AIzaSy_k")) = true.
Proof.
  apply (proj1 (@validate_key_format_rules ascii_runtime)).
  by exists (lit "_k").
Defined.

(** A key of at least eight characters is displayed as its first four
    characters, three dots and its last four characters, whatever lies
    between them; the display has eleven characters. *)
Lemma mask_key_elides_middle (p m s : str) :
  length p = 4%nat -> length s = 4%nat ->
  _mask_key (Some (p ++ m ++ s)) = p ++ lit "..." ++ s
  /\ length (_mask_key (Some (p ++ m ++ s))) = 11%nat.
Proof.
  intros Hp Hs.
  assert (Hmask : _mask_key (Some (p ++ m ++ s)) = p ++ lit "..." ++ s).
  { destruct p as [|c p]; [discriminate |].
    change (_mask_key (Some ((c :: p) ++ m ++ s)))
      with (slice_to 4 ((c :: p) ++ m ++ s) ++ lit "..."
              ++ slice_from_end 4 ((c :: p) ++ m ++ s)).
    unfold slice_to, slice_from_end.
    rewrite take_app_length' by done.
    rewrite (app_assoc (c :: p) m s).
    rewrite drop_app_length' by (rewrite !length_app in *; lia).
    done. }
  split; [done |]. rewrite Hmask, !length_app, Hp, Hs. reflexivity.
Qed.

Lemma mask_key_elides_middle_witness :
  _mask_key (Some (lit "AIzaSyD3-secret-part-9xQ2")) = lit "AIza...9xQ2".
Proof.
  apply (mask_key_elides_middle (lit "AIza") (lit "SyD3-secret-part-") (lit "9xQ2"));
    reflexivity.
Defined.

(** C10 on short keys: [_mask_key] shows the four-character key "sk-a",
    which [_validate_key_format] accepts for "OpenAI", whole and twice over,
    and shows every character of an eight-character key, eliding nothing. *)
Lemma mask_key_shows_short_key :
  @_validate_key_format ascii_runtime (Some (lit "OpenAI")) (Some (lit "sk-a"))
    = true
  /\ _mask_key (Some (lit "sk-a")) = lit "sk-a...sk-a"
  /\ contains (_mask_key (Some (lit "sk-a"))) (lit "sk-a") = true
  /\ _mask_key (Some (lit "AIzaSyK9")) = lit "AIza...SyK9".
Proof. repeat split. Qed.

(** *** Running the manager: equations for the effectful operations *)

(** [verify_api_key] on a registered model, branch by branch. *)
Lemma verify_api_key_eq `{Python} `{Externals} (model_id : str)
    (config : ModelConfig) (w : World) :
  models_get MODELS model_id = Some config ->
  verify_api_key model_id w =
    let api_key := environ w !! key_env config in
    if negb (truthy api_key) then
      (Return (false, lit "No API key found"), w)
    else if negb (_validate_key_format (Some (provider config)) api_key) then
      (Return (false, cross ++ lit " Invalid " ++ provider config
                        ++ lit " API key format"), w)
    else
      let h1 := network w ++ [probe_client config (default [] api_key)] in
      match client_init h1 with
      | Some e =>
          (Return (false, cross ++ lit " Error initializing LLM: " ++ str_of_exn e),
           log_line (LogError (lit "Error initializing LLM for verification: "
                                 ++ str_of_exn e))
             (with_network h1 w))
      | None =>
          let h2 := h1 ++ [Invoke probe_messages] in
          match client_ainvoke h2 with
          | Return content =>
              (Return (if contains content (lit "OK")
                       then (true, check_mark ++ lit " API key verified successfully")
                       else (false, cross ++ lit
                               " API key verification failed: Unexpected response")),
               with_network h2 w)
          | Raise e =>
              (Return (false, cross ++ lit " API key verification failed: "
                                ++ str_of_exn e),
               log_line (LogError (lit "API Key verification request failed: "
                                     ++ str_of_exn e))
                 (with_network h2 w))
          end
      end.
Proof.
  intros Hm. unfold verify_api_key, try_except at 1, bind at 1. rewrite Hm.
  unfold ret at 1, bind at 1, getenv, gets. cbv zeta.
  destruct (negb (truthy (environ w !! key_env config))); [reflexivity |].
  destruct (negb (_validate_key_format _ _)); [reflexivity |].
  unfold bind, try_except, new_client, ainvoke, ret, logger_error, emit, modify,
    log_line.
  cbn [network with_network]. 
  destruct (client_init _) as [e|]; [reflexivity |].
  cbn [network with_network].
  destruct (client_ainvoke _) as [content|e]; [| reflexivity].
  destruct (contains content (lit "OK")); reflexivity.
Qed.

(** [verify_api_key] on an identifier that is not registered. *)
Lemma verify_api_key_unknown `{Python} `{Externals} (model_id : str) (w : World) :
  models_get MODELS model_id = None ->
  verify_api_key model_id w =
    (Return (false, cross ++ lit " API key verification process error: "
                      ++ py_repr model_id),
     log_line (LogError (lit "Error during key verification process: "
                           ++ py_repr model_id)) w).
Proof.
  intros Hm. unfold verify_api_key, try_except, bind. rewrite Hm. reflexivity.
Qed.

(** *** The [.env] file *)

Lemma file_set_binds (k v : str) (f : list (str * str)) :
  file_binds k (file_set k v f) = true.
Proof.
  unfold file_set. destruct (file_binds k f) eqn:Hb.
  - unfold file_binds in *. apply existsb_exists in Hb as (b & Hin & Hb).
    apply existsb_exists. exists (k, v). split; [| by apply bool_decide_eq_true].
    apply in_map_iff. exists b. by rewrite Hb.
  - unfold file_binds. rewrite existsb_app. simpl.
    rewrite bool_decide_eq_true_2 by done. apply orb_true_r.
Qed.

(** After [set_key] every binding of the name has the value written. *)
Lemma file_set_all (k v : str) (f : list (str * str)) :
  Forall (fun b => fst b = k -> snd b = v) (file_set k v f).
Proof.
  unfold file_set. destruct (file_binds k f) eqn:Hb.
  - apply Forall_forall. intros b (b0 & <- & _)%list_elem_of_In%in_map_iff.
    case_bool_decide; [done |]. intros ?. done.
  - apply Forall_app. split; [| by repeat constructor].
    apply Forall_forall. intros b Hin%list_elem_of_In Hk.
    unfold file_binds in Hb. apply not_true_iff_false in Hb. destruct Hb.
    apply existsb_exists. exists b. split; [done |]. by apply bool_decide_eq_true.
Qed.

Lemma file_get_all (k v : str) (f : list (str * str)) :
  Forall (fun b => fst b = k -> snd b = v) f ->
  file_binds k f = true ->
  file_get f k = Some v.
Proof.
  induction 1 as [|[k' v'] f Hb Hf IH]; [done |]. simpl in *.
  intros Hbinds. destruct (file_binds k f) eqn:Hk.
  - by rewrite IH.
  - rewrite orb_false_r in Hbinds. rewrite Hbinds.
    apply bool_decide_eq_true in Hbinds. rewrite (Hb Hbinds).
    destruct (file_get f k) as [x|] eqn:Hx; [| done].
    exfalso. clear -Hk Hx. induction f as [|[k2 v2] f IH]; [done |].
    simpl in *. apply orb_false_iff in Hk as [Hk1 Hk2].
    destruct (file_get f k); [by apply IH |]. by rewrite Hk1 in Hx.
Qed.

(** The file holds what [set_key] wrote. *)
Lemma file_set_lookup (k v : str) (f : list (str * str)) :
  file_set k v f !! k = Some v.
Proof. apply file_get_all; [apply file_set_all | apply file_set_binds]. Qed.

Lemma file_get_app (f g : list (str * str)) (k : str) :
  file_get (f ++ g) k
  = match file_get g k with Some x => Some x | None => file_get f k end.
Proof.
  induction f as [|[k' v'] f IH]; simpl; [by destruct (file_get g k) |].
  rewrite IH. by destruct (file_get g k).
Qed.

(** [set_key] leaves the value of every other name alone. *)
Lemma file_set_lookup_ne (k k' v : str) (f : list (str * str)) :
  k' <> k -> file_get (file_set k' v f) k = file_get f k.
Proof.
  intros Hne. unfold file_set. destruct (file_binds k' f).
  - induction f as [|[k2 v2] f IH]; [done |]. cbn [map fst].
    case_bool_decide as Hk; simpl; rewrite IH; [| done].
    subst k2. by rewrite !bool_decide_eq_false_2.
  - rewrite file_get_app. simpl. by rewrite bool_decide_eq_false_2.
Qed.

(** After the assignments a name holds the value of its last one, or the
    value it had. *)
Lemma update_all_lookup (items : list (str * str)) (env : gmap str str)
    (k : str) :
  update_all items env !! k
  = match file_get items k with Some v => Some v | None => env !! k end.
Proof.
  revert env. induction items as [|[k' v'] items IH]; intros env; [done |].
  unfold update_all in *. simpl. rewrite IH.
  destruct (file_get items k); [done |].
  case_bool_decide as Hk; [subst; apply lookup_insert_eq |].
  by apply lookup_insert_ne.
Qed.

Lemma dotenv_values_fold (k v : str) (env : gmap str str)
    (f new_values : list (str * str)) :
  Forall (fun b => fst b = k -> snd b = v) f ->
  (file_binds k f = true
   \/ exists e, file_get new_values k = Some (expand e v)) ->
  exists e,
    file_get
      (fold_left (fun nv b =>
                    dict_set (fst b) (expand (update_all nv env) (snd b)) nv)
                 f new_values) k
    = Some (expand e v).
Proof.
  intros Hf. revert new_values.
  induction Hf as [|[k' v'] f Hb Hf IH]; intros nv Hnv; simpl in *.
  - by destruct Hnv.
  - apply IH. destruct (file_binds k f); [by left | right].
    destruct (decide (k' = k)) as [-> | Hne].
    + exists (update_all nv env). rewrite (Hb eq_refl). apply file_set_lookup.
    + unfold dict_set. rewrite file_set_lookup_ne by done.
      destruct Hnv as [Hnv | Hnv]; [| done].
      rewrite orb_false_r in Hnv. by apply bool_decide_eq_true in Hnv.
Qed.

(** What is read under a name just written is the value written, expanded
    in some environment. *)
Lemma dotenv_values_set (k v : str) (env : gmap str str) (f : list (str * str)) :
  exists e, dotenv_values env (file_set k v f) !! k = Some (expand e v).
Proof.
  apply dotenv_values_fold; [apply file_set_all | left; apply file_set_binds].
Qed.

(** And that is what the environment holds once the values are loaded. *)
Lemma loaded_set (k v : str) (env : gmap str str) (f : list (str * str)) :
  exists e,
    update_all (dotenv_values env (file_set k v f)) env !! k
    = Some (expand e v).
Proof.
  destruct (dotenv_values_set k v env f) as [e He]. exists e.
  rewrite update_all_lookup. unfold lookup, file_lookup in He. by rewrite He.
Qed.

Lemma loaded_set_verbatim (k v : str) (env : gmap str str)
    (f : list (str * str)) :
  verbatim v = true ->
  update_all (dotenv_values env (file_set k v f)) env !! k = Some v.
Proof.
  intros Hv. destruct (loaded_set k v env f) as [e ->].
  by rewrite expand_verbatim.
Qed.

(** [_update_env_safely], outcome by outcome of the lock and of the two
    library calls. *)
Lemma update_env_safely_eq `{Python} `{Externals} (ke v : str) (w : World) :
  _update_env_safely ke v w =
    match lock_io (writes w) with
    | Some e => (Raise e, w)
    | None =>
        let ws := writes w ++ [(ke, strip v)] in
        match set_key_io ws with
        | Some e =>
            (Return false,
             log_line (LogError (lit "Error updating environment: "
                                   ++ str_of_exn e))
               (with_writes ws w))
        | None =>
            let w1 := with_dotenv (file_set ke (strip v) (dotenv w))
                        (with_writes ws w) in
            let items := dotenv_values (environ w1) (dotenv w1) in
            match load_dotenv_io ws with
            | Some (e, n) =>
                (Return false,
                 log_line (LogError (lit "Error updating environment: "
                                       ++ str_of_exn e))
                   (with_environ (update_all (take n items) (environ w1)) w1))
            | None =>
                (Return true,
                 with_environ (update_all items (environ w1)) w1)
            end
        end
    end.
Proof.
  unfold _update_env_safely, acquire_env_lock, bind at 1.
  destruct (lock_io _) as [e|]; [reflexivity |].
  unfold try_except, bind, set_key, load_dotenv_override.
  cbv zeta. destruct (set_key_io _) as [e|]; [reflexivity |].
  cbn [writes with_dotenv with_writes].
  destruct (load_dotenv_io _) as [[e n]|]; reflexivity.
Qed.

(** [_update_env_safely] raises what acquiring the lock raises, before
    anything is touched, and otherwise returns. *)
Lemma update_env_safely_cases `{Python} `{Externals} (ke v : str) (w : World) :
  (exists e, lock_io (writes w) = Some e
             /\ _update_env_safely ke v w = (Raise e, w))
  \/ (lock_io (writes w) = None
      /\ exists b : bool, fst (_update_env_safely ke v w) = Return b).
Proof.
  rewrite update_env_safely_eq. cbv zeta.
  destruct (lock_io _) as [e|]; [left; by exists e | right; split; [done |]].
  destruct (set_key_io _); [by exists false |].
  destruct (load_dotenv_io _) as [[? ?]|]; [by exists false | by exists true].
Qed.

Lemma verify_api_key_no_key `{Python} `{Externals} (model_id : str)
    (config : ModelConfig) (w : World) :
  models_get MODELS model_id = Some config ->
  truthy (environ w !! key_env config) = false ->
  verify_api_key model_id w = (Return (false, lit "No API key found"), w).
Proof.
  intros Hm Ht. rewrite (verify_api_key_eq _ _ _ Hm). cbv zeta. by rewrite Ht.
Qed.

Lemma verify_api_key_bad_format `{Python} `{Externals} (model_id : str)
    (config : ModelConfig) (w : World) :
  models_get MODELS model_id = Some config ->
  truthy (environ w !! key_env config) = true ->
  _validate_key_format (Some (provider config)) (environ w !! key_env config)
    = false ->
  verify_api_key model_id w =
    (Return (false, cross ++ lit " Invalid " ++ provider config
                      ++ lit " API key format"), w).
Proof.
  intros Hm Ht Hv. rewrite (verify_api_key_eq _ _ _ Hm). cbv zeta.
  by rewrite Ht, Hv.
Qed.

(** C3: verification fails fast.  For a registered model whose secret is
    absent or empty the answer is "No API key found"; for one whose secret is
    present but format-invalid it is the provider's format error.  In both
    cases the world is returned as it was: no client is built, nothing is sent. *)
Theorem verify_fails_fast `{Python} `{Externals} (model_id : str)
    (config : ModelConfig) (w : World) :
  models_get MODELS model_id = Some config ->
  (truthy (environ w !! key_env config) = false ->
   verify_api_key model_id w = (Return (false, lit "No API key found"), w))
  /\ (truthy (environ w !! key_env config) = true ->
      _validate_key_format (Some (provider config)) (environ w !! key_env config)
        = false ->
      verify_api_key model_id w =
        (Return (false, cross ++ lit " Invalid " ++ provider config
                          ++ lit " API key format"), w)).
Proof.
  intros Hm. split.
  - by apply verify_api_key_no_key.
  - by apply verify_api_key_bad_format.
Qed.

Lemma verify_fails_fast_witness :
  @verify_api_key ascii_runtime (answering (lit "OK")) (lit "1") (fresh ∅)
    = (Return (false, lit "No API key found"), fresh ∅)
  /\ @verify_api_key ascii_runtime (answering (lit "OK")) (lit "1")
       (fresh {[ lit "GOOGLE_API_KEY" := lit "not-a-key" ]})
     = (Return (false, cross ++ lit " Invalid Google API key format"),
        fresh {[ lit "GOOGLE_API_KEY" := lit "not-a-key" ]}).
Proof.
  split.
  - by apply (@verify_fails_fast ascii_runtime (answering (lit "OK")) (lit "1") _
                (fresh ∅) eq_refl).
  - by apply (@verify_fails_fast ascii_runtime (answering (lit "OK")) (lit "1") _
                (fresh {[ lit "GOOGLE_API_KEY" := lit "not-a-key" ]}) eq_refl).
Defined.

(** C4: with a present, format-valid secret, verification builds one client
    for the model with that secret and temperature 0, sends it the one fixed
    prompt, and succeeds exactly when the client was built, the call returned,
    and "OK" occurs in the returned content. *)
Theorem verify_probe_outcome `{Python} `{Externals} (model_id : str)
    (config : ModelConfig) (w : World) (k : str) :
  models_get MODELS model_id = Some config ->
  environ w !! key_env config = Some k ->
  _validate_key_format (Some (provider config)) (Some k) = true ->
  let h1 := network w ++ [probe_client config k] in
  let h2 := h1 ++ [Invoke probe_messages] in
  let r := verify_api_key model_id w in
  (exists kw, probe_client config k
              = Construct (class config) kw k (model config) 0)
  /\ (network (snd r) = h1 \/ network (snd r) = h2)
  /\ (client_init h1 = None -> network (snd r) = h2)
  /\ exists ok msg,
       fst r = Return (ok, msg)
       /\ (ok = true <->
           client_init h1 = None
           /\ exists content, client_ainvoke h2 = Return content
              /\ exists pre post, content = pre ++ lit "OK" ++ post).
Proof.
  intros Hm Hk Hv h1 h2 r.
  assert (Ht : truthy (Some k) = true) by (by destruct k).
  assert (Hr : r = verify_api_key model_id w) by reflexivity.
  rewrite (verify_api_key_eq _ _ _ Hm) in Hr. cbv zeta in Hr.
  rewrite Hk, Ht, Hv in Hr. change (default [] (Some k)) with k in Hr.
  cbn [negb] in Hr. fold h1 h2 in Hr.
  split.
  { unfold probe_client. repeat case_bool_decide; eauto. }
  destruct (client_init h1) as [e|] eqn:Hinit.
  - rewrite Hr. cbn. split; [by left |]. split; [done |].
    eexists _, _. split; [reflexivity |]. split; [done | by intros [? _]].
  - destruct (client_ainvoke h2) as [content|e] eqn:Hresp.
    + rewrite Hr. cbn [fst snd network with_network]. split; [by right |].
      split; [done |].
      destruct (contains content (lit "OK")) eqn:Hc.
      * eexists _, _. split; [reflexivity |]. split; [| done].
        intros _. split; [done |]. exists content. split; [done |].
        by apply contains_spec.
      * eexists _, _. split; [reflexivity |]. split; [done |].
        intros [_ [content' [[= <-] Hsub]]].
        apply contains_spec in Hsub. congruence.
    + rewrite Hr. cbn. split; [by right |]. split; [done |].
      eexists _, _. split; [reflexivity |]. split; [done |].
      by intros [_ [content' [? _]]].
Qed.

Lemma verify_probe_outcome_witness :
  network (snd (@verify_api_key ascii_runtime (answering (lit "OK")) (lit "1")
                  (fresh {[ lit "GOOGLE_API_KEY" := lit "AIzaSy_live" ]})))
  = [ Construct ChatGoogleGenerativeAI (lit "google_api_key")
        (lit "AIzaSy_live") (lit "gemini-2.0-flash-exp") 0;
      Invoke [(lit "user", lit "Respond with exactly 'OK' and nothing else")] ].
Proof.
  assert (Hk : environ (fresh {[ lit "GOOGLE_API_KEY" := lit "AIzaSy_live" ]})
                 !! lit "GOOGLE_API_KEY" = Some (lit "AIzaSy_live"))
    by (vm_compute; reflexivity).
  apply (proj1 (proj2 (proj2
    (@verify_probe_outcome ascii_runtime (answering (lit "OK")) (lit "1") _
       (fresh {[ lit "GOOGLE_API_KEY" := lit "AIzaSy_live" ]})
       (lit "AIzaSy_live") eq_refl Hk eq_refl)))).
  reflexivity.
Defined.

(** C6, as the code has it: the store can hold an empty secret, which is not
    the same store as one where the name is unset, but [check_api_key] and
    [verify_api_key] read both alike: not usable, "No API key found", and
    nothing sent. *)
Theorem empty_key_read_as_missing `{Python} `{Externals} (model_id : str)
    (config : ModelConfig) (w : World) :
  models_get MODELS model_id = Some config ->
  environ w !! key_env config = Some ([] : str) ->
  let unset := with_environ (delete (key_env config) (environ w)) w in
  environ unset !! key_env config = None
  /\ check_api_key w model_id = false
  /\ check_api_key unset model_id = false
  /\ verify_api_key model_id w = (Return (false, lit "No API key found"), w)
  /\ verify_api_key model_id unset
     = (Return (false, lit "No API key found"), unset).
Proof.
  intros Hm He unset.
  assert (Hu : environ unset !! key_env config = None)
    by apply lookup_delete_eq.
  clearbody unset.
  split; [done |]. unfold check_api_key. rewrite Hm. cbv zeta.
  rewrite He, Hu.
  split; [done |]. split; [done |]. split.
  - apply (verify_api_key_no_key _ _ _ Hm). by rewrite He.
  - apply (verify_api_key_no_key _ _ _ Hm). by rewrite Hu.
Qed.

Lemma empty_key_read_as_missing_witness :
  @verify_api_key ascii_runtime (answering (lit "OK")) (lit "3")
    (fresh {[ lit "OPENAI_API_KEY" := [] ]})
  = (Return (false, lit "No API key found"),
     fresh {[ lit "OPENAI_API_KEY" := [] ]}).
Proof.
  assert (Hk : environ (fresh {[ lit "OPENAI_API_KEY" := [] ]})
                 !! lit "OPENAI_API_KEY" = Some ([] : str))
    by (vm_compute; reflexivity).
  apply (proj1 (proj2 (proj2 (proj2
    (@empty_key_read_as_missing ascii_runtime (answering (lit "OK")) (lit "3") _
       (fresh {[ lit "OPENAI_API_KEY" := [] ]}) eq_refl Hk))))).
Defined.

(** C6 fails: a removed (empty) Google key and an unset one are different
    stores, yet the status check and the verification cannot tell them
    apart. *)
Lemma empty_key_conflated_with_missing :
  environ (fresh {[ lit "GOOGLE_API_KEY" := [] ]}) !! lit "GOOGLE_API_KEY"
    = Some []
  /\ environ (fresh ∅) !! lit "GOOGLE_API_KEY" = None
  /\ @check_api_key ascii_runtime (fresh {[ lit "GOOGLE_API_KEY" := [] ]}) (lit "1")
     = @check_api_key ascii_runtime (fresh ∅) (lit "1")
  /\ fst (@verify_api_key ascii_runtime (answering (lit "OK")) (lit "1")
            (fresh {[ lit "GOOGLE_API_KEY" := [] ]}))
     = fst (@verify_api_key ascii_runtime (answering (lit "OK")) (lit "1")
              (fresh ∅)).
Proof. repeat split; vm_compute; reflexivity. Qed.

(** *** Operations that leave the store alone *)

Lemma store_unchanged_refl (w : World) : store_unchanged w w.
Proof. by repeat split. Qed.

Lemma store_unchanged_trans (w1 w2 w3 : World) :
  store_unchanged w1 w2 -> store_unchanged w2 w3 -> store_unchanged w1 w3.
Proof.
  intros (He & Hd & Hw) (He' & Hd' & Hw').
  repeat split; congruence.
Qed.

Lemma quiet_ret {A} (a : A) : quiet (ret a).
Proof. intros w. split; [by exists a | apply store_unchanged_refl]. Qed.

Lemma quiet_bind {A B} (m : M World A) (k : A -> M World B) :
  quiet m -> (forall a, quiet (k a)) -> quiet (bind m k).
Proof.
  intros Hm Hk w. destruct (Hm w) as [[a Ha] Hs].
  unfold bind. destruct (m w) as [r w1]. simpl in Ha, Hs. subst r.
  destruct (Hk a w1) as [Hr Hs']. split; [done |].
  by apply store_unchanged_trans with w1.
Qed.

Lemma quiet_emit (o : Output) : quiet (emit o).
Proof. intros w. split; [by exists tt | by repeat split]. Qed.

Lemma quiet_getenv (k : str) : quiet (getenv k).
Proof. intros w. split; [by eexists | apply store_unchanged_refl]. Qed.

Lemma quiet_verify_api_key `{Python} `{Externals} (model_id : str) :
  quiet (verify_api_key model_id).
Proof.
  intros w. destruct (models_get MODELS model_id) as [config|] eqn:Hm.
  - rewrite (verify_api_key_eq _ _ _ Hm). cbv zeta.
    destruct (negb (truthy _)); [apply quiet_ret |].
    destruct (negb (_validate_key_format _ _)); [apply quiet_ret |].
    destruct (client_init _); [split; [by eexists | by repeat split] |].
    destruct (client_ainvoke _); split; try by eexists.
    all: by repeat split.
  - rewrite (verify_api_key_unknown _ _ Hm).
    split; [by eexists | by repeat split].
Qed.

Lemma quiet_verify_models `{Python} `{Externals} (ms : list (str * ModelConfig)) :
  quiet (verify_models ms).
Proof.
  induction ms as [|[id m] ms IH]; [apply quiet_ret |].
  cbn [verify_models].
  apply quiet_bind; [apply quiet_getenv |]. intros k.
  apply quiet_bind.
  - destruct (truthy k); [| apply quiet_ret].
    apply quiet_bind; [apply quiet_verify_api_key |]. intros r.
    apply quiet_bind; [| intros; apply quiet_ret].
    destruct (fst r); [apply quiet_ret | apply quiet_emit].
  - intros st. apply quiet_bind; [done |]. intros rest. apply quiet_ret.
Qed.

Lemma print_models_eq (statuses : list (str * bool))
    (ms : list (str * ModelConfig)) (w : World) :
  exists shown,
    print_models statuses ms w = (Return tt, with_output (fun out => out ++ shown) w)
    /\ forallb is_terminal shown = true.
Proof.
  revert w. induction ms as [|[id m] ms IH]; intros w.
  - exists []. destruct w as [e d o n ws].
    cbv [print_models ret with_output environ dotenv output network writes].
    by rewrite app_nil_r.
  - cbn [print_models]. cbv zeta. unfold bind, print, emit, modify.
    match goal with
    | |- context [print_models statuses ms ?w'] =>
        destruct (IH w') as (shown & Hrun & Hshown)
    end.
    eexists (Print _ :: shown). rewrite Hrun. split; [| exact Hshown].
    destruct w as [e d o n ws].
    cbv [log_line with_output environ dotenv output network writes].
    by rewrite <- app_assoc.
Qed.

Lemma quiet_print_models (statuses : list (str * bool))
    (ms : list (str * ModelConfig)) : quiet (print_models statuses ms).
Proof.
  intros w. destruct (print_models_eq statuses ms w) as (shown & -> & _).
  split; [by exists tt | by repeat split].
Qed.

Lemma quiet_list_models `{Python} `{Externals} : quiet list_models.
Proof.
  unfold list_models.
  apply quiet_bind; [apply quiet_emit |]. intros _.
  apply quiet_bind; [apply quiet_verify_models |]. intros sts.
  apply quiet_bind; [apply quiet_emit |]. intros _.
  apply quiet_bind; [apply quiet_emit |]. intros _.
  apply quiet_bind; [apply quiet_print_models |]. intros _.
  apply quiet_ret.
Qed.

Lemma add_update_rejected_eq `{Python} `{Externals}
    (answer_id answer_key : str) (w : World) :
  (models_get MODELS (strip answer_id) = None
   \/ exists m, models_get MODELS (strip answer_id) = Some m
        /\ strip answer_key <> []
        /\ _validate_key_format (Some (provider m)) (Some (strip answer_key))
           = false) ->
  exists shown,
    add_update_api_key answer_id answer_key w
    = (Return tt, with_output (fun out => out ++ shown) (snd (list_models w)))
    /\ forallb is_terminal shown = true.
Proof.
  intros Hrej.
  destruct (quiet_list_models w) as [[sts Hret] _].
  unfold add_update_api_key. unfold bind at 1.
  destruct (list_models w) as [r0 wl]. cbn [fst snd] in *. subst r0.
  unfold bind at 1. unfold emit at 1, modify at 1.
  destruct wl as [e d o n ws].
  destruct Hrej as [Hm | (m & Hm & Hne & Hbad)]; rewrite Hm.
  - eexists [_; _]. split.
    + cbv [print emit modify log_line with_output environ dotenv output network
           writes].
      by rewrite <- app_assoc.
    + reflexivity.
  - assert (Ht : truthy (Some (strip answer_key)) = true)
      by (by destruct (strip answer_key)).
    unfold bind, getenv, gets. rewrite Ht, Hbad.
    eexists [_; _; _; _]. split.
    + cbv [negb print emit modify log_line with_output environ dotenv output
             network writes].
      by rewrite <- !app_assoc.
    + reflexivity.
Qed.

(** C5: an update whose model selection is unknown, or whose new key is
    non-empty and format-invalid, is rejected before any write: the call
    returns, the environment and the [.env] file are untouched, no [set_key]
    is attempted, and past the status listing that opens the dialogue nothing
    is sent to a provider: only terminal output is added. *)
Theorem update_rejected_before_any_write `{Python} `{Externals}
    (answer_id answer_key : str) (w : World) :
  (models_get MODELS (strip answer_id) = None
   \/ exists m, models_get MODELS (strip answer_id) = Some m
        /\ strip answer_key <> []
        /\ _validate_key_format (Some (provider m)) (Some (strip answer_key))
           = false) ->
  let listed := snd (list_models w) in
  let r := add_update_api_key answer_id answer_key w in
  fst r = Return tt
  /\ environ (snd r) = environ w
  /\ dotenv (snd r) = dotenv w
  /\ writes (snd r) = writes w
  /\ network (snd r) = network listed
  /\ exists shown, output (snd r) = output listed ++ shown
                   /\ forallb is_terminal shown = true.
Proof.
  intros Hrej listed r. subst listed r.
  destruct (add_update_rejected_eq answer_id answer_key w Hrej)
    as (shown & -> & Hshown).
  destruct (quiet_list_models w) as [_ (He & Hd & Hw)].
  cbn [fst snd]. repeat split; try done. by exists shown.
Qed.

Lemma update_rejected_before_any_write_witness :
  writes (snd (@add_update_api_key ascii_runtime (answering (lit "OK"))
                 (lit "1") (lit "bad-format")
                 (fresh {[ lit "GOOGLE_API_KEY" := lit "AIzaSy_old" ]})))
  = [].
Proof.
  apply (@update_rejected_before_any_write ascii_runtime (answering (lit "OK"))
           (lit "1") (lit "bad-format")
           (fresh {[ lit "GOOGLE_API_KEY" := lit "AIzaSy_old" ]})).
  right. eexists. split; [reflexivity |]. split; [| reflexivity].
  vm_compute. discriminate.
Defined.

(** *** Worlds that differ only in their output *)

Lemma agree_refl (w : World) : agree w w.
Proof. by repeat split. Qed.

Lemma agree_trans (w1 w2 w3 : World) : agree w1 w2 -> agree w2 w3 -> agree w1 w3.
Proof.
  intros (? & ? & ? & ?) (? & ? & ? & ?). repeat split; congruence.
Qed.

Lemma agree_log_line (o : Output) (w w' : World) :
  agree w w' -> agree (log_line o w) w'.
Proof. intros (? & ? & ? & ?). by repeat split. Qed.

Lemma agree_log_line_r (o : Output) (w w' : World) :
  agree w w' -> agree w (log_line o w').
Proof. intros (? & ? & ? & ?). by repeat split. Qed.

Lemma update_env_safely_agree `{Python} `{Externals} (ke v : str) (w w' : World) :
  agree w w' ->
  fst (_update_env_safely ke v w) = fst (_update_env_safely ke v w')
  /\ agree (snd (_update_env_safely ke v w)) (snd (_update_env_safely ke v w')).
Proof.
  intros (He & Hd & Hn & Hw). rewrite !update_env_safely_eq. cbv zeta.
  rewrite Hw. destruct (lock_io _); [by repeat split |].
  destruct (set_key_io _); [by repeat split |].
  cbn [dotenv environ with_dotenv with_writes].
  destruct (load_dotenv_io _) as [[? ?]|]; [split; [done |] |].
  - repeat split; cbn; congruence.
  - split; [done |]. repeat split; cbn; congruence.
Qed.

Lemma verify_api_key_agree `{Python} `{Externals} (model_id : str) (w w' : World) :
  agree w w' ->
  fst (verify_api_key model_id w) = fst (verify_api_key model_id w')
  /\ agree (snd (verify_api_key model_id w)) (snd (verify_api_key model_id w')).
Proof.
  intros Ha. destruct (models_get MODELS model_id) as [config|] eqn:Hm.
  - rewrite !(verify_api_key_eq _ _ _ Hm). cbv zeta.
    destruct Ha as (He & Hd & Hn & Hw). rewrite He, Hn.
    destruct (negb (truthy _)); [by repeat split |].
    destruct (negb (_validate_key_format _ _)); [by repeat split |].
    destruct (client_init _); [by repeat split |].
    destruct (client_ainvoke _); by repeat split.
  - rewrite !(verify_api_key_unknown _ _ Hm).
    destruct Ha as (He & Hd & Hn & Hw). by repeat split.
Qed.

(** After a successful update the file holds the stripped value, and the
    environment holds what is read back from it. *)
Lemma update_env_safely_loaded `{Python} `{Externals} (ke v : str) (w : World) :
  fst (_update_env_safely ke v w) = Return true ->
  dotenv (snd (_update_env_safely ke v w)) !! ke = Some (strip v)
  /\ exists e,
       environ (snd (_update_env_safely ke v w)) !! ke
       = Some (expand e (strip v)).
Proof.
  rewrite update_env_safely_eq. cbv zeta.
  destruct (lock_io _); [discriminate |].
  destruct (set_key_io _); [discriminate |].
  destruct (load_dotenv_io _) as [[? ?]|]; [discriminate |]. intros _.
  cbn [snd environ dotenv with_environ with_dotenv with_writes].
  split; [apply file_set_lookup | apply loaded_set].
Qed.

Lemma update_env_safely_stored `{Python} `{Externals} (ke v : str) (w : World) :
  verbatim (strip v) = true ->
  fst (_update_env_safely ke v w) = Return true ->
  environ (snd (_update_env_safely ke v w)) !! ke = Some (strip v).
Proof.
  intros Hv Hr. destruct (update_env_safely_loaded ke v w Hr) as [_ [e ->]].
  by rewrite expand_verbatim.
Qed.

Lemma get_provider_registered (model_id : str) (m : ModelConfig) :
  models_get MODELS model_id = Some m ->
  _get_provider (key_env m) = Some (provider m).
Proof.
  unfold MODELS, models_get. repeat case_bool_decide; intros [= <-]; reflexivity.
Qed.

Lemma bind_return {S A B} (m : M S A) (k : A -> M S B) (s s' : S) (a : A) :
  m s = (Return a, s') -> bind m k s = k a s'.
Proof. intros Hm. unfold bind. by rewrite Hm. Qed.

Lemma try_except_return {S A} (m : M S A) (h : exn -> M S A) (s s' : S) (a : A) :
  m s = (Return a, s') -> try_except m h s = (Return a, s').
Proof. intros Hm. unfold try_except. by rewrite Hm. Qed.

Lemma bind_raise {S A B} (m : M S A) (k : A -> M S B) (s s' : S) (e : exn) :
  m s = (Raise e, s') -> bind m k s = (Raise e, s').
Proof. intros Hm. unfold bind. by rewrite Hm. Qed.

Lemma try_except_raise {S A} (m : M S A) (h : exn -> M S A) (s s' : S) (e : exn) :
  m s = (Raise e, s') -> try_except m h s = h e s'.
Proof. intros Hm. unfold try_except. by rewrite Hm. Qed.

(** [_revert_key_safely] is one write of the value to roll back to. *)
Lemma revert_key_safely_eq `{Python} `{Externals} (model_id : str)
    (m : ModelConfig) (old : option str) (w : World) :
  models_get MODELS model_id = Some m ->
  _revert_key_safely (key_env m) old w =
    (_update_env_safely (key_env m)
       (if truthy old && _validate_key_format (Some (provider m)) old
        then default [] old else []) ;; ret tt) w.
Proof.
  intros Hm. unfold _revert_key_safely.
  rewrite (get_provider_registered _ _ Hm).
  by destruct (truthy old && _validate_key_format _ old).
Qed.

(** C1, as the code has it: when the new key is persisted, its verification
    fails and the rollback write goes through, and the value written back is
    one the [.env] round trip keeps (no [$], backslash or carriage return),
    the environment afterwards holds, under the provider's name, the old
    value with surrounding whitespace stripped if the old value was non-empty
    and format-valid, and the empty string otherwise.  It holds the new key
    only if that restored value is the new key. *)
Theorem rollback_restores_stripped_old_key `{Python} `{Externals}
    (answer_id answer_key : str) (m : ModelConfig) (w : World) :
  let model_id := strip answer_id in
  let new_key := strip answer_key in
  let old := environ w !! key_env m in
  let rollback_value :=
    if truthy old && _validate_key_format (Some (provider m)) old
    then default [] old else [] in
  let persisted := _update_env_safely (key_env m) new_key (snd (list_models w)) in
  let verified := verify_api_key model_id (snd persisted) in
  let final := snd (add_update_api_key answer_id answer_key w) in
  models_get MODELS model_id = Some m ->
  new_key <> [] ->
  _validate_key_format (Some (provider m)) (Some new_key) = true ->
  fst persisted = Return true ->
  (exists msg, fst verified = Return (false, msg)) ->
  fst (_update_env_safely (key_env m) rollback_value (snd verified))
    = Return true ->
  verbatim (strip rollback_value) = true ->
  environ final !! key_env m
    = Some (if truthy old && _validate_key_format (Some (provider m)) old
            then strip (default [] old) else [])
  /\ (environ final !! key_env m = Some new_key ->
      truthy old = true
      /\ _validate_key_format (Some (provider m)) old = true
      /\ strip (default [] old) = new_key).
Proof.
  intros model_id new_key old rollback_value persisted verified final
    Hm Hne Hvalid Hpersist [msg Hverify] Hrollback Hplain.
  assert (Hfinal : environ final !! key_env m = Some (strip rollback_value)).
  { subst final. unfold add_update_api_key.
    destruct (quiet_list_models w) as [[sts Hret] (He & Hd & Hw)].
    destruct (list_models w) as [r0 wl] eqn:Hl. cbn [fst snd] in *. subst r0.
    rewrite (bind_return _ _ _ _ _ Hl).
    erewrite bind_return by reflexivity. fold model_id. rewrite Hm.
    erewrite bind_return by reflexivity.
    erewrite bind_return by reflexivity.
    erewrite bind_return by reflexivity.
    fold new_key.
    assert (Ht : truthy (Some new_key) = true) by (by destruct new_key).
    rewrite Ht, Hvalid. cbn [negb].
    set (w4 := log_line _ (log_line _ (log_line _ wl))).
    assert (Ha4 : agree w4 wl) by (by do 3 apply agree_log_line).
    assert (Hold : environ (log_line
                     (Prompt (nl ++ lit "Select model number to add/update API key: "))
                     wl) !! key_env m = old)
      by (subst old; cbn; by rewrite He).
    rewrite Hold.
    (* persist *)
    destruct (update_env_safely_agree (key_env m) new_key w4 wl Ha4) as [Hp1 Hp2].
    fold persisted in Hp1, Hp2. rewrite Hpersist in Hp1.
    destruct (_update_env_safely (key_env m) new_key w4) as [r5 w5] eqn:H5.
    cbn [fst snd] in Hp1, Hp2. subst r5.
    (* verify *)
    set (testing := Print (nl ++ lit "Testing API key for " ++ name m ++ lit "...")).
    destruct (verify_api_key_agree model_id (log_line testing w5) (snd persisted)
                (agree_log_line _ _ _ Hp2)) as [Hv1 Hv2].
    fold verified in Hv1, Hv2. rewrite Hverify in Hv1.
    destruct (verify_api_key model_id (log_line testing w5)) as [r7 w7] eqn:H7.
    cbn [fst snd] in Hv1, Hv2. subst r7.
    (* roll back *)
    set (w9 := log_line
                 (Print (warning_sign ++ lit
                    " Verification failed. Reverting to previous API key for "
                    ++ name m ++ lit "."))
                 (log_line (Print msg) w7)).
    assert (Ha9 : agree w9 (snd verified)) by (by do 2 apply agree_log_line).
    destruct (update_env_safely_agree (key_env m) rollback_value w9 (snd verified) Ha9)
      as [Hr1 Hr2].
    rewrite Hrollback in Hr1.
    pose proof (update_env_safely_stored (key_env m) rollback_value w9 Hplain Hr1)
      as Hstored.
    destruct (_update_env_safely (key_env m) rollback_value w9) as [r10 w10] eqn:H10.
    cbn [fst snd] in Hr1, Hstored. subst r10.
    assert (Hbody :
      (updated <- _update_env_safely (key_env m) new_key ;;
       if (updated : bool) then
         print (nl ++ lit "Testing API key for " ++ name m ++ lit "...") ;;
         r <- verify_api_key model_id ;;
         print (snd r) ;;
         if negb (fst r) then
           print (warning_sign ++ lit
                    " Verification failed. Reverting to previous API key for "
                    ++ name m ++ lit ".") ;;
           _revert_key_safely (key_env m) old
         else
           print (check_mark ++ lit " API key for " ++ name m
                    ++ lit " updated and verified successfully.")
       else
         print (cross ++ lit " Failed to update API key for " ++ name m
                  ++ lit ".")) w4 = (Return tt, w10)).
    { rewrite (bind_return _ _ _ _ _ H5).
      erewrite bind_return by reflexivity.
      erewrite bind_return by exact H7.
      erewrite bind_return by reflexivity.
      cbn [fst snd negb].
      erewrite bind_return by reflexivity.
      rewrite (revert_key_safely_eq _ _ _ _ Hm). fold rollback_value.
      fold w9. by rewrite (bind_return _ _ _ _ _ H10). }
    rewrite (try_except_return _ _ _ _ _ Hbody). exact Hstored. }
  rewrite Hfinal. subst rollback_value.
  destruct (truthy old && _validate_key_format (Some (provider m)) old) eqn:Hc.
  - split; [done |]. intros [= Hs]. by apply andb_true_iff in Hc as [? ?].
  - split; [done |]. intros [= Hs]. by rewrite <- Hs in Hne.
Qed.

Lemma rollback_restores_stripped_old_key_witness :
  environ (snd (@add_update_api_key ascii_runtime (answering (lit "no"))
                  (lit "1") (lit "AIzaSy_new")
                  (fresh {[ lit "GOOGLE_API_KEY" := lit "AIzaSy_old" ]})))
    !! lit "GOOGLE_API_KEY"
  = Some (lit "AIzaSy_old").
Proof.
  edestruct (@rollback_restores_stripped_old_key ascii_runtime
               (answering (lit "no")) (lit "1") (lit "AIzaSy_new")
               {| name := lit "Gemini"; provider := lit "Google";
                  model := lit "gemini-2.0-flash-exp";
                  key_env := lit "GOOGLE_API_KEY";
                  class := ChatGoogleGenerativeAI |}
               (fresh {[ lit "GOOGLE_API_KEY" := lit "AIzaSy_old" ]}))
    as [Hstored _].
  - reflexivity.
  - vm_compute. discriminate.
  - reflexivity.
  - vm_compute. reflexivity.
  - eexists. vm_compute. reflexivity.
  - vm_compute. reflexivity.
  - vm_compute. reflexivity.
  - cbn [key_env] in Hstored. rewrite Hstored. vm_compute. reflexivity.
Defined.

(** C1 fails.  With verification failing and both writes going through:
    an old Google key that ends in a blank is format-valid, yet what is
    restored is the key without the blank, not the old value; and when the
    key entered is the one already stored, the value after the rollback is
    that new key. *)
Lemma rollback_does_not_always_restore_old_or_differ_from_new :
  (@_validate_key_format ascii_runtime (Some (lit "Google"))
     (Some (lit "AIzaSy_old ")) = true
   /\ writes (snd (@add_update_api_key ascii_runtime (answering (lit "no"))
                     (lit "1") (lit "AIzaSy_new")
                     (fresh {[ lit "GOOGLE_API_KEY" := lit "AIzaSy_old " ]})))
      = [ (lit "GOOGLE_API_KEY", lit "AIzaSy_new");
          (lit "GOOGLE_API_KEY", lit "AIzaSy_old") ]
   /\ environ (snd (@add_update_api_key ascii_runtime (answering (lit "no"))
                      (lit "1") (lit "AIzaSy_new")
                      (fresh {[ lit "GOOGLE_API_KEY" := lit "AIzaSy_old " ]})))
        !! lit "GOOGLE_API_KEY"
      = Some (lit "AIzaSy_old")
   /\ lit "AIzaSy_old" <> lit "AIzaSy_old ")
  /\ (writes (snd (@add_update_api_key ascii_runtime (answering (lit "no"))
                     (lit "1") (lit "AIzaSy_key")
                     (fresh {[ lit "GOOGLE_API_KEY" := lit "AIzaSy_key" ]})))
      = [ (lit "GOOGLE_API_KEY", lit "AIzaSy_key");
          (lit "GOOGLE_API_KEY", lit "AIzaSy_key") ]
      /\ environ (snd (@add_update_api_key ascii_runtime (answering (lit "no"))
                         (lit "1") (lit "AIzaSy_key")
                         (fresh {[ lit "GOOGLE_API_KEY" := lit "AIzaSy_key" ]})))
           !! lit "GOOGLE_API_KEY"
         = Some (lit "AIzaSy_key")).
Proof.
  repeat split; try (vm_compute; reflexivity). vm_compute. discriminate.
Qed.

(** An old key with a variable reference in it is not restored as it was:
    reading the file back replaces the reference, here by nothing, no
    variable of that name being set. *)
Example rollback_expands_references :
  @_validate_key_format ascii_runtime (Some (lit "Google"))
    (Some (lit "AIzaSy_${NOPE}")) = true
  /\ environ (snd (@add_update_api_key ascii_runtime (answering (lit "no"))
                     (lit "1") (lit "AIzaSy_new")
                     (fresh {[ lit "GOOGLE_API_KEY" := lit "AIzaSy_${NOPE}" ]})))
       !! lit "GOOGLE_API_KEY"
     = Some (lit "AIzaSy_").
Proof. split; vm_compute; reflexivity. Qed.

(** When [set_key] raises during the rollback, [_revert_key_safely] goes on
    regardless and the new key stays in place. *)
Example rollback_write_failure_keeps_new_key :
  environ (snd (@add_update_api_key ascii_runtime
                  (disk_fails_after_first_write (lit "no"))
                  (lit "1") (lit "AIzaSy_new")
                  (fresh {[ lit "GOOGLE_API_KEY" := lit "AIzaSy_old" ]})))
    !! lit "GOOGLE_API_KEY"
  = Some (lit "AIzaSy_new").
Proof. vm_compute. reflexivity. Qed.

End LLMManagerSpec.

Module BrowserAutomationSpec.
Import BrowserAutomation.

Lemma built_snoc (f : DriverCall -> bool) (evs : list DriverEvent)
    (ev : DriverEvent) :
  built f (evs ++ [ev]) = (built f evs + (if f (call ev) && returned ev then 1 else 0))%nat.
Proof.
  unfold built. rewrite List.filter_app, length_app. cbn [List.filter].
  by destruct (f (call ev) && returned ev).
Qed.

(** [initialize], case by case on the two handles and on what the browser
    library answers. *)
Lemma initialize_eq `{Python} `{Driver} (s : Session) :
  initialize s =
    let ok := LogInfo (lit "Browser and context initialized successfully") in
    let failed e := LogError (lit "Error initializing browser: " ++ str_of_exn e) in
    match browser s, context s with
    | Some _, Some _ => (Return tt, s)
    | Some bh, None =>
        match construct (calls s) (NewContext bh) with
        | Return ch =>
            (Return tt,
             {| browser := Some bh; context := Some ch;
                calls := calls s ++ [Called (NewContext bh) true];
                log := log s ++ [ok] |})
        | Raise e =>
            (Raise e,
             {| browser := Some bh; context := None;
                calls := calls s ++ [Called (NewContext bh) false];
                log := log s ++ [failed e] |})
        end
    | None, c0 =>
        match construct (calls s) NewBrowser with
        | Raise e =>
            (Raise e,
             {| browser := None; context := c0;
                calls := calls s ++ [Called NewBrowser false];
                log := log s ++ [failed e] |})
        | Return bh =>
            match c0 with
            | Some _ =>
                (Return tt,
                 {| browser := Some bh; context := c0;
                    calls := calls s ++ [Called NewBrowser true];
                    log := log s ++ [ok] |})
            | None =>
                match construct (calls s ++ [Called NewBrowser true]) (NewContext bh) with
                | Return ch =>
                    (Return tt,
                     {| browser := Some bh; context := Some ch;
                        calls := (calls s ++ [Called NewBrowser true])
                                   ++ [Called (NewContext bh) true];
                        log := log s ++ [ok] |})
                | Raise e =>
                    (Raise e,
                     {| browser := Some bh; context := None;
                        calls := (calls s ++ [Called NewBrowser true])
                                   ++ [Called (NewContext bh) false];
                        log := log s ++ [failed e] |})
                end
            end
        end
    end.
Proof.
  destruct s as [[b|] [c|] evs lg]; cbv zeta; cbn [browser context calls log];
    unfold initialize, bind, try_except, gets, call_construct; simpl;
    repeat match goal with
      | |- context [construct ?a ?c] =>
          let E := fresh "E" in
          destruct (construct a c) eqn:E; simpl; rewrite ?E
      end;
    reflexivity.
Qed.

Lemma initialize_ready `{Python} `{Driver} (s : Session) (b c : Handle) :
  browser s = Some b -> context s = Some c -> initialize s = (Return tt, s).
Proof.
  intros Hb Hc. rewrite initialize_eq. cbv zeta. by rewrite Hb, Hc.
Qed.

Lemma initialize_built_once `{Python} `{Driver} (s : Session) :
  built_once s -> built_once (snd (initialize s)).
Proof.
  rewrite initialize_eq. cbv zeta.
  destruct s as [[b|] [c|] evs lg]; unfold built_once, handle_count;
    cbn [browser context calls log]; intros [Hb Hc].
  - done.
  - destruct (construct evs (NewContext b)); cbn [browser context calls snd];
      rewrite !built_snoc; cbn; lia.
  - destruct (construct evs NewBrowser); cbn [browser context calls snd];
      rewrite !built_snoc; cbn; lia.
  - destruct (construct evs NewBrowser) as [h|e].
    + destruct (construct _ (NewContext h)); cbn [browser context calls snd];
        rewrite !built_snoc; cbn; lia.
    + cbn [browser context calls snd]. rewrite !built_snoc; cbn; lia.
Qed.

Lemma initialize_times_built_once `{Python} `{Driver} (n : nat) (s : Session) :
  built_once s -> built_once (initialize_times n s).
Proof.
  revert s. induction n as [|n IH]; intros s Hs; [done |].
  cbn [initialize_times]. by apply IH, initialize_built_once.
Qed.

(** C7: initialisation is idempotent.  On a session whose browser and
    context are both set, [initialize] returns at once and leaves the session
    as it is: nothing is called, nothing is logged.  And however many times
    [initialize] is called on a new session, each handle that ends up set was
    built exactly once and nothing else was built; a ready session has one
    browser and one context built. *)
Theorem initialize_idempotent `{Python} `{Driver} :
  (forall (s : Session) (b c : Handle),
     browser s = Some b -> context s = Some c ->
     initialize s = (Return tt, s))
  /\ (forall n : nat,
        let s := initialize_times n __init__ in
        built is_new_browser (calls s) = handle_count (browser s)
        /\ built is_new_context (calls s) = handle_count (context s))
  /\ (forall (n : nat) (b c : Handle),
        let s := initialize_times n __init__ in
        browser s = Some b -> context s = Some c ->
        built is_new_browser (calls s) = 1%nat
        /\ built is_new_context (calls s) = 1%nat).
Proof.
  assert (Hinv : forall n, built_once (initialize_times n __init__)).
  { intros n. apply initialize_times_built_once. by split. }
  split; [apply @initialize_ready |]. split.
  - intros n. apply Hinv.
  - intros n b c s Hb Hc. destruct (Hinv n) as [H1 H2]. fold s in H1, H2.
    by rewrite Hb in H1; rewrite Hc in H2.
Qed.

Lemma initialize_idempotent_witness :
  built is_new_browser
    (calls (@initialize_times ascii_runtime healthy 3 __init__)) = 1%nat
  /\ built is_new_context
       (calls (@initialize_times ascii_runtime healthy 3 __init__)) = 1%nat.
Proof.
  apply (proj2 (proj2 (@initialize_idempotent ascii_runtime healthy))
           3%nat 0%nat 1%nat); reflexivity.
Defined.

(** C8, as the code has it: when [initialize] raises, the exception is the
    one the browser library raised and the context handle is left as it was.
    Either [Browser()] raised and the browser handle is still unset, or
    [new_context()] raised and the browser handle, whether it was there
    before or was built by this very call, stays set while the context is
    unset: the session is then half built. *)
Theorem initialize_failure_state `{Python} `{Driver} (s s' : Session) (e : exn) :
  initialize s = (Raise e, s') ->
  context s' = context s
  /\ ((browser s = None /\ browser s' = None
       /\ construct (calls s) NewBrowser = Raise e)
      \/ (exists (bh : Handle) (evs : list DriverEvent),
            browser s' = Some bh /\ context s' = None
            /\ (browser s = Some bh /\ evs = calls s
                \/ browser s = None
                   /\ construct (calls s) NewBrowser = Return bh
                   /\ evs = calls s ++ [Called NewBrowser true])
            /\ construct evs (NewContext bh) = Raise e)).
Proof.
  rewrite initialize_eq. cbv zeta.
  destruct s as [[b|] [c|] evs0 lg]; cbn [browser context calls log].
  - discriminate.
  - destruct (construct evs0 (NewContext b)) as [ch|e'] eqn:E; intros [= <- <-].
    split; [done |]. right. exists b, evs0. cbn. eauto 10.
  - destruct (construct evs0 NewBrowser) as [bh|e'] eqn:E; intros [= <- <-].
    split; [done |]. by left.
  - destruct (construct evs0 NewBrowser) as [bh|e'] eqn:E.
    + destruct (construct _ (NewContext bh)) as [ch|e''] eqn:E'; intros [= <- <-].
      split; [done |]. right. exists bh, (evs0 ++ [Called NewBrowser true]).
      cbn. eauto 10.
    + intros [= <- <-]. split; [done |]. by left.
Qed.

Lemma initialize_failure_state_witness :
  browser (snd (@initialize ascii_runtime no_context __init__)) = Some 0%nat
  /\ context (snd (@initialize ascii_runtime no_context __init__)) = None.
Proof.
  destruct (@initialize_failure_state ascii_runtime no_context __init__
              (snd (@initialize ascii_runtime no_context __init__))
              (Exception (lit "Target closed")) eq_refl)
    as [Hc [(_ & Hb & _) | (bh & evs & Hb & Hc' & _)]].
  - discriminate Hb.
  - split; [reflexivity | exact Hc'].
Defined.

(** C8 fails: when [Browser()] works and [new_context()] raises, the call
    raises that exception and leaves the browser handle set. *)
Lemma initialize_failure_retains_browser :
  fst (@initialize ascii_runtime no_context __init__)
    = Raise (Exception (lit "Target closed"))
  /\ browser (snd (@initialize ascii_runtime no_context __init__)) = Some 0%nat
  /\ context (snd (@initialize ascii_runtime no_context __init__)) = None
  /\ calls (snd (@initialize ascii_runtime no_context __init__))
     = [Called NewBrowser true; Called (NewContext 0%nat) false].
Proof. repeat split. Qed.

(** C9, as the code has it: [cleanup] never raises.  It closes the context
    and then the browser under one guard: if closing the context raises, the
    browser is not closed and both handles stay as they were; if closing the
    browser raises, the context handle is unset and the browser handle stays
    set; if no close raises, both handles end up unset. *)
Theorem cleanup_single_guard `{Python} `{Driver} (s : Session) :
  let r := cleanup s in
  fst r = Return tt
  /\ (forall (ch : Handle) (e : exn),
        context s = Some ch ->
        close (calls s) (CloseContext ch) = Some e ->
        context (snd r) = Some ch /\ browser (snd r) = browser s
        /\ calls (snd r) = calls s ++ [Called (CloseContext ch) false])
  /\ (forall (bh : Handle) (e : exn),
        browser s = Some bh ->
        match context s with
        | Some ch => close (calls s) (CloseContext ch) = None
        | None => True
        end ->
        close (match context s with
               | Some ch => calls s ++ [Called (CloseContext ch) true]
               | None => calls s
               end) (CloseBrowser bh) = Some e ->
        context (snd r) = None /\ browser (snd r) = Some bh)
  /\ (forall evs : list DriverEvent,
        calls (snd r) = calls s ++ evs -> forallb returned evs = true ->
        context (snd r) = None /\ browser (snd r) = None).
Proof.
  destruct s as [[b|] [c|] evs0 lg]; cbv zeta;
    unfold cleanup, bind, try_except, gets, call_close; simpl;
    repeat match goal with
      | |- context [close ?a ?c] =>
          let E := fresh "E" in
          destruct (close a c) eqn:E; simpl; rewrite ?E
      end;
    (split; [reflexivity |]);
    (split; [intros ch e' [= <-] He'; try congruence; by repeat split |]);
    (split; [intros bh e' [= <-] Hctx He'; try congruence; by repeat split |]);
    intros evs Hevs Hret; try done;
    rewrite <- ?app_assoc in Hevs; apply app_inv_head in Hevs; subst evs;
    discriminate.
Qed.

Lemma cleanup_single_guard_witness :
  context (snd (@cleanup ascii_runtime stuck_context
                  (snd (@initialize ascii_runtime stuck_context __init__))))
    = Some 1%nat
  /\ browser (snd (@cleanup ascii_runtime stuck_context
                     (snd (@initialize ascii_runtime stuck_context __init__))))
     = Some 0%nat.
Proof.
  destruct (proj1 (proj2 (@cleanup_single_guard ascii_runtime stuck_context
              (snd (@initialize ascii_runtime stuck_context __init__))))
              1%nat (Exception (lit "Target closed")) eq_refl eq_refl)
    as (Hc & Hb & _).
  split; [exact Hc | exact Hb].
Defined.

(** C9 fails: on a ready session whose context cannot be closed, [cleanup]
    returns normally but never calls [close] on the browser, and both
    handles stay set. *)
Lemma cleanup_context_failure_skips_browser :
  browser (snd (@initialize ascii_runtime stuck_context __init__)) = Some 0%nat
  /\ context (snd (@initialize ascii_runtime stuck_context __init__)) = Some 1%nat
  /\ fst (@cleanup ascii_runtime stuck_context
            (snd (@initialize ascii_runtime stuck_context __init__)))
     = Return tt
  /\ browser (snd (@cleanup ascii_runtime stuck_context
                     (snd (@initialize ascii_runtime stuck_context __init__))))
     = Some 0%nat
  /\ context (snd (@cleanup ascii_runtime stuck_context
                     (snd (@initialize ascii_runtime stuck_context __init__))))
     = Some 1%nat
  /\ calls (snd (@cleanup ascii_runtime stuck_context
                   (snd (@initialize ascii_runtime stuck_context __init__))))
     = [ Called NewBrowser true; Called (NewContext 0%nat) true;
         Called (CloseContext 1%nat) false ].
Proof. repeat split. Qed.

End BrowserAutomationSpec.

(** * Further properties of the manager *)

Module LLMManagerMore.
Import LLMManager LLMManagerSpec.

(** *** [strip] *)

Lemma lstrip_idem (s : str) : lstrip (lstrip s) = lstrip s.
Proof.
  induction s as [|c s IH]; [done |]. simpl.
  destruct (isspace c) eqn:Hc; [done |]. simpl. by rewrite Hc.
Qed.

Lemma lstrip_head (s t : str) (c : N) :
  lstrip s = c :: t -> isspace c = false.
Proof.
  induction s as [|d s IH]; [done |]. simpl.
  destruct (isspace d) eqn:Hd; [done |]. by intros [= <- _].
Qed.

Lemma lstrip_app_fixed (a b : str) :
  lstrip b = b -> lstrip (a ++ b) = lstrip a ++ b.
Proof.
  intros Hb. induction a as [|c a IH]; [done |]. simpl.
  by destruct (isspace c).
Qed.

Lemma rstrip_cons (c : N) (t : str) :
  isspace c = false -> rstrip (c :: t) = c :: rstrip t.
Proof.
  intros Hc. unfold rstrip. simpl.
  rewrite lstrip_app_fixed by (simpl; by rewrite Hc).
  by rewrite rev_app_distr.
Qed.

Lemma strip_no_space (s : str) :
  Forall (fun c => isspace c = false) s -> strip s = s.
Proof.
  intros Hs. unfold strip.
  assert (Hl : lstrip s = s) by (destruct Hs as [|c s Hc _]; simpl; by rewrite ?Hc).
  rewrite Hl. induction Hs as [|c s Hc Hs IH]; [done |].
  rewrite rstrip_cons by done. f_equal. apply IH.
  destruct Hs as [|d s Hd _]; simpl; by rewrite ?Hd.
Qed.

Lemma strip_idem (s : str) : strip (strip s) = strip s.
Proof.
  unfold strip. destruct (lstrip s) as [|c t] eqn:Hl; [done |].
  pose proof (lstrip_head _ _ _ Hl) as Hc.
  rewrite rstrip_cons by done. simpl. rewrite Hc.
  rewrite rstrip_cons by done. f_equal.
  unfold rstrip. by rewrite rev_involutive, lstrip_idem.
Qed.

(** [strip] keeps a prefix that is free of whitespace. *)
Lemma strip_prefix (p rest : str) :
  p <> [] -> Forall (fun c => isspace c = false) p ->
  strip (p ++ rest) = p ++ rstrip rest.
Proof.
  intros Hne Hp. unfold strip.
  assert (Hl : lstrip (p ++ rest) = p ++ rest).
  { destruct Hp as [|c p Hc _]; [done |]. simpl. by rewrite Hc. }
  rewrite Hl. clear Hl Hne. induction Hp as [|c p Hc Hp IH]; [done |].
  simpl. rewrite rstrip_cons by done. by rewrite IH.
Qed.

(** X1: [_update_env_safely] raises only what acquiring the lock raises,
    and then nothing has been touched.  With the lock acquired it returns a
    boolean, having attempted exactly one write, that of the stripped value.
    When it returns [True] and the stripped value is one the [.env] round
    trip keeps (no [$], backslash or carriage return), the environment and
    the file both hold it under the name.  When [set_key] raises it returns
    [False] with the environment and the file unchanged. *)
Theorem update_env_safely_outcome `{Python} `{Externals} (ke v : str) (w : World) :
  let r := _update_env_safely ke v w in
  match lock_io (writes w) with
  | Some e => r = (Raise e, w)
  | None =>
      exists b : bool,
        fst r = Return b
        /\ writes (snd r) = writes w ++ [(ke, strip v)]
        /\ (b = true -> verbatim (strip v) = true ->
            environ (snd r) !! ke = Some (strip v)
            /\ dotenv (snd r) !! ke = Some (strip v))
        /\ (is_Some (set_key_io (writes w ++ [(ke, strip v)])) ->
            b = false
            /\ environ (snd r) = environ w
            /\ dotenv (snd r) = dotenv w)
  end.
Proof.
  cbv zeta. rewrite update_env_safely_eq. cbv zeta.
  destruct (lock_io _); [reflexivity |].
  destruct (set_key_io _); [exists false; by repeat split |].
  destruct (load_dotenv_io _) as [[? ?]|].
  { exists false. repeat split; try done; by intros [? ?]. }
  exists true. split; [done |]. split; [done |]. split; [| by intros [? ?]].
  intros _ Hv.
  cbn [snd environ dotenv with_environ with_dotenv with_writes].
  split; [by apply loaded_set_verbatim | apply file_set_lookup].
Qed.

(** A lock that cannot be acquired: the exception leaves
    [_update_env_safely], and the dialogue that called it reports it. *)
Example update_env_safely_lock_failure :
  @_update_env_safely ascii_runtime (lock_unavailable (lit "OK"))
    (lit "GOOGLE_API_KEY") (lit "AIzaSy_new") (fresh ∅)
    = (Raise (Exception (lit "Permission denied")), fresh ∅)
  /\ fst (@add_update_api_key ascii_runtime (lock_unavailable (lit "OK"))
            (lit "1") (lit "AIzaSy_new") (fresh ∅))
     = Return tt
  /\ rev (output (snd (@add_update_api_key ascii_runtime
                         (lock_unavailable (lit "OK"))
                         (lit "1") (lit "AIzaSy_new") (fresh ∅))))
       !! 0%nat
     = Some (Print (cross ++ lit " Error updating API key: Permission denied")).
Proof. repeat split; vm_compute; reflexivity. Qed.

(** When an assignment fails while the file is read back, the call returns
    [False] with the variables assigned before it changed: here the file
    binds [FOO] ahead of the key. *)
Example update_env_safely_partial_load :
  let r := @_update_env_safely ascii_runtime (load_fails_at_second (lit "OK"))
             (lit "GOOGLE_API_KEY") (lit "AIzaSy_new")
             (with_dotenv [(lit "FOO", lit "bar")] (fresh ∅)) in
  fst r = Return false
  /\ environ (snd r) = {[ lit "FOO" := lit "bar" ]}
  /\ dotenv (snd r)
     = [(lit "FOO", lit "bar"); (lit "GOOGLE_API_KEY", lit "AIzaSy_new")].
Proof. repeat split; vm_compute; reflexivity. Qed.

(** A value with a variable reference in it is stored expanded: here the
    reference is to the Google key already in the environment. *)
Example update_env_safely_expands_references :
  environ (snd (@_update_env_safely ascii_runtime (answering (lit "OK"))
                  (lit "OPENAI_API_KEY") (lit "sk-${GOOGLE_API_KEY}")
                  (fresh {[ lit "GOOGLE_API_KEY" := lit "AIzaSy_g" ]})))
    !! lit "OPENAI_API_KEY"
  = Some (lit "sk-AIzaSy_g").
Proof. vm_compute. reflexivity. Qed.

(** X2: a key that starts with "sk-" is never format-valid for
    "Anthropic": the hyphen is not alphanumeric.  So no key is valid for
    both "OpenAI" and "Anthropic". *)
Theorem anthropic_rejects_sk_keys `{Python} (k : str) :
  startswith k (lit "sk-") = true ->
  _validate_key_format (Some (lit "Anthropic")) (Some k) = false.
Proof.
  intros [rest ->]%startswith_spec.
  rewrite validate_anthropic. apply andb_false_iff. right. reflexivity.
Qed.

Lemma anthropic_rejects_sk_keys_witness :
  @_validate_key_format ascii_runtime (Some (lit "Anthropic"))
    (Some (lit "sk-ant-REDACTED")) = false.
Proof. apply anthropic_rejects_sk_keys. reflexivity. Defined.

Lemma ascii_runtime_spaces_not_alnum (c : N) :
  isspace c = true -> @isalnum_char ascii_runtime c = false.
Proof.
  unfold isspace, isalnum_char, isalnum_ascii. cbn [unicode_isalnum ascii_runtime].
  destruct (N.ltb_spec c 128) as [Hlt | Hge]; [| done].
  rewrite !orb_true_iff, !andb_true_iff, !N.leb_le, !N.eqb_eq. intros Hs.
  apply not_true_is_false.
  rewrite !orb_true_iff, !andb_true_iff, !N.leb_le. lia.
Qed.

(** Stripping a format-valid key leaves it format-valid, provided no
    whitespace character counts as alphanumeric (as in Python); an
    "Anthropic" key is not changed at all. *)
Lemma valid_key_survives_strip `{Python} (p : option str) (k : str) :
  (forall c : N, isspace c = true -> isalnum_char c = false) ->
  _validate_key_format p (Some k) = true ->
  _validate_key_format p (Some (strip k)) = true
  /\ (p = Some (lit "Anthropic") -> strip k = k).
Proof.
  intros Hws Hv.
  destruct (decide (p = Some (lit "Google"))) as [-> | Hg].
  { split; [| intros [=]]. rewrite validate_google in *.
    apply startswith_spec in Hv as [rest ->].
    rewrite strip_prefix; [by apply startswith_spec; eexists | done |].
    repeat constructor. }
  destruct (decide (p = Some (lit "OpenAI"))) as [-> | Ho].
  { split; [| intros [=]]. rewrite validate_openai in *.
    apply startswith_spec in Hv as [rest ->].
    rewrite strip_prefix; [by apply startswith_spec; eexists | done |].
    repeat constructor. }
  destruct (decide (p = Some (lit "Anthropic"))) as [-> | Ha].
  { assert (Hk : strip k = k).
    { apply strip_no_space. rewrite validate_anthropic in Hv.
      apply andb_true_iff in Hv as [_ [_ Hal]%isalnum_spec].
      eapply Forall_impl; [exact Hal |]. intros c Hc. cbv beta in Hc.
      destruct (isspace c) eqn:Hs; [| done]. apply Hws in Hs. congruence. }
    by rewrite Hk. }
  exfalso. unfold _validate_key_format in Hv. destruct k; [done |].
  rewrite !bool_decide_eq_false_2 in Hv by done. done.
Qed.

(** Reading a format-valid key back from the file leaves it format-valid:
    the prefixes hold no [$], and neither does an alphanumeric key. *)
Lemma valid_key_survives_expand `{Python} (p : option str) (k : str)
    (env : gmap str str) :
  _validate_key_format p (Some k) = true ->
  _validate_key_format p (Some (expand env k)) = true.
Proof.
  intros Hv.
  destruct (decide (p = Some (lit "Google"))) as [-> | Hg].
  { rewrite validate_google in *. apply startswith_spec in Hv as [rest ->].
    rewrite expand_app by (repeat constructor; vm_compute; discriminate).
    apply startswith_spec. by eexists. }
  destruct (decide (p = Some (lit "OpenAI"))) as [-> | Ho].
  { rewrite validate_openai in *. apply startswith_spec in Hv as [rest ->].
    rewrite expand_app by (repeat constructor; vm_compute; discriminate).
    apply startswith_spec. by eexists. }
  destruct (decide (p = Some (lit "Anthropic"))) as [-> | Ha].
  { rewrite expand_no_dollar; [done |]. rewrite validate_anthropic in Hv.
    apply andb_true_iff in Hv as [_ [_ Hal]%isalnum_spec].
    eapply Forall_impl; [exact Hal |]. intros c Hc ->. cbv in Hc. done. }
  exfalso. unfold _validate_key_format in Hv. destruct k; [done |].
  rewrite !bool_decide_eq_false_2 in Hv by done. done.
Qed.

(** X3: [verify_api_key] is read-only and bounded.  For any identifier it
    returns a verdict without raising, leaves environment, file and write
    log alone, and makes at most two provider calls; for an identifier that
    is not registered the verdict is a failure and no call is made. *)
Theorem verify_api_key_read_only `{Python} `{Externals} (model_id : str)
    (w : World) :
  let r := verify_api_key model_id w in
  (exists (ok : bool) (msg : str), fst r = Return (ok, msg)
     /\ (models_get MODELS model_id = None -> ok = false))
  /\ store_unchanged w (snd r)
  /\ exists evs : list NetEvent,
       network (snd r) = network w ++ evs /\ (length evs <= 2)%nat
       /\ (models_get MODELS model_id = None -> evs = []).
Proof.
  cbv zeta. destruct (models_get MODELS model_id) as [config|] eqn:Hm.
  - rewrite (verify_api_key_eq _ _ _ Hm). cbv zeta.
    destruct (negb (truthy _)).
    { split; [eexists _, _; split; [reflexivity | done] |]. split; [by repeat split |].
      exists []. rewrite app_nil_r. split; [done | split; [cbn; lia | done]]. }
    destruct (negb (_validate_key_format _ _)).
    { split; [eexists _, _; split; [reflexivity | done] |]. split; [by repeat split |].
      exists []. rewrite app_nil_r. split; [done | split; [cbn; lia | done]]. }
    destruct (client_init _).
    { split; [eexists _, _; split; [reflexivity | done] |]. split; [by repeat split |].
      eexists [_]. cbn. split; [done |]. split; [lia | done]. }
    destruct (client_ainvoke _) as [content|e].
    + split; [destruct (contains content _); eexists _, _; (split; [reflexivity | done]) |].
      split; [by repeat split |].
      eexists [_; _]. cbn. rewrite <- app_assoc. split; [done |].
      split; [lia | done].
    + split; [eexists _, _; split; [reflexivity | done] |]. split; [by repeat split |].
      eexists [_; _]. cbn. rewrite <- app_assoc. split; [done |].
      split; [lia | done].
  - rewrite (verify_api_key_unknown _ _ Hm).
    split; [eexists _, _; split; [reflexivity | done] |]. split; [by repeat split |].
    exists []. cbn. rewrite app_nil_r. split; [done | split; [lia | done]].
Qed.

(** *** The status listing *)

Lemma check_api_key_environ `{Python} (w w' : World) (model_id : str) :
  environ w' = environ w -> check_api_key w' model_id = check_api_key w model_id.
Proof. intros He. unfold check_api_key. by rewrite He. Qed.

(** What one verification tells about the key it looked at. *)
Lemma verify_api_key_verdict `{Python} `{Externals} (model_id : str) (w : World) :
  exists (ok : bool) (msg : str),
    fst (verify_api_key model_id w) = Return (ok, msg)
    /\ (ok = true -> check_api_key w model_id = true)
    /\ (check_api_key w model_id = false ->
        ok = false /\ network (snd (verify_api_key model_id w)) = network w).
Proof.
  unfold check_api_key.
  destruct (models_get MODELS model_id) as [config|] eqn:Hm.
  - rewrite (verify_api_key_eq _ _ _ Hm). cbv zeta.
    destruct (negb (truthy _)); [by eexists _, _ |].
    destruct (_validate_key_format _ _); cbn [negb]; [| by eexists _, _].
    destruct (client_init _); [by eexists _, _ |].
    destruct (client_ainvoke _) as [content|e]; [| by eexists _, _].
    destruct (contains content _); by eexists _, _.
  - rewrite (verify_api_key_unknown _ _ Hm). by eexists _, _.
Qed.

Lemma verify_models_spec `{Python} `{Externals} (ms : list (str * ModelConfig))
    (w : World) :
  exists sts : list (str * bool),
    fst (verify_models ms w) = Return sts
    /\ map fst sts = map fst ms
    /\ (forall id, statuses_get sts id = true -> check_api_key w id = true)
    /\ ((forall id, check_api_key w id = false) ->
        network (snd (verify_models ms w)) = network w).
Proof.
  revert w. induction ms as [|[id0 m] ms IH]; intros w.
  { exists []. by repeat split. }
  enough (Heq : exists (sts : list (str * bool)) (w' : World),
    verify_models ((id0, m) :: ms) w = (Return sts, w')
    /\ map fst sts = map fst ((id0, m) :: ms)
    /\ (forall id, statuses_get sts id = true -> check_api_key w id = true)
    /\ ((forall id, check_api_key w id = false) -> network w' = network w)).
  { destruct Heq as (sts & w' & -> & Hids & Hsound & Hoff). by exists sts. }
  cbn [verify_models]. unfold bind at 1, getenv, gets.
  set (inner := (if truthy (environ w !! key_env m)
                 then _ else ret false) : M World bool).
  assert (Hinner : exists (st : bool) (w1 : World),
    inner w = (Return st, w1)
    /\ environ w1 = environ w
    /\ (st = true -> check_api_key w id0 = true)
    /\ (check_api_key w id0 = false -> network w1 = network w)).
  { subst inner. destruct (truthy _); [| by exists false, w].
    destruct (verify_api_key_verdict id0 w) as (ok & msg & Hr & Hok & Hno).
    destruct (quiet_verify_api_key id0 w) as [_ (He & _ & _)].
    destruct (verify_api_key id0 w) as [r w1] eqn:Hv.
    cbn [fst snd] in *. subst r.
    rewrite (bind_return _ _ _ _ _ Hv). cbn [fst snd].
    destruct ok.
    - exists true, w1. split; [reflexivity |]. split; [done |].
      split; [done |]. intros Hc. by destruct (Hno Hc).
    - eexists false, _. split; [reflexivity |]. split; [done |].
      split; [done |]. intros Hc. by destruct (Hno Hc). }
  destruct Hinner as (st & w1 & Hst & He & Hok & Hno).
  rewrite (bind_return _ _ _ _ _ Hst).
  destruct (IH w1) as (rest & Hrest & Hids & Hsound & Hoff).
  destruct (verify_models ms w1) as [r w2] eqn:Hvm.
  cbn [fst snd] in *. subst r.
  rewrite (bind_return _ _ _ _ _ Hvm).
  exists ((id0, st) :: rest), w2. unfold ret. cbn [fst snd map]. split; [done |].
  split; [by rewrite Hids |]. split.
  - intros id. cbn [statuses_get]. case_bool_decide as Hid.
    + intros ->. subst id. by apply Hok.
    + intros Hs. rewrite <- (check_api_key_environ w w1 id He). by apply Hsound.
  - intros Hall. rewrite Hoff, Hno; [done | apply Hall |].
    intros id. rewrite (check_api_key_environ w w1 id He). apply Hall.
Qed.

(** X4: the statuses [list_models] returns never overstate.  It always
    returns, with one entry per registered model in registry order, and a
    model is reported usable only if its key is present and format-valid. *)
Theorem list_models_status_sound `{Python} `{Externals} (w : World) :
  exists sts : list (str * bool),
    fst (list_models w) = Return sts
    /\ map fst sts = map fst MODELS
    /\ forall id, statuses_get sts id = true -> check_api_key w id = true.
Proof.
  unfold list_models. unfold bind at 1, print, emit, modify.
  set (w0 := log_line _ w).
  destruct (verify_models_spec MODELS w0) as (sts & Hr & Hids & Hsound & _).
  unfold bind at 1. destruct (verify_models MODELS w0) as [r w1].
  cbn [fst snd] in Hr. subst r.
  exists sts.
  assert (Hsame : fst ((emit (Print (nl ++ lit "Available AI Models:")) ;;
                        emit (Print (lit "----")) ;;
                        print_models sts MODELS ;; ret sts)%py w1) = Return sts).
  { destruct (print_models_eq sts MODELS
                (log_line (Print (lit "----"))
                   (log_line (Print (nl ++ lit "Available AI Models:")) w1)))
      as (shown & Hp & _).
    unfold bind, emit, modify. by rewrite Hp. }
  split; [exact Hsame |]. split; [done |].
  intros id Hs. rewrite <- (check_api_key_environ w w0 id eq_refl).
  by apply Hsound.
Qed.

(** X5: when no registered key is usable (absent, empty or format-invalid),
    [list_models] talks to no provider and reports every model as not
    usable. *)
Theorem list_models_offline_without_usable_key `{Python} `{Externals} (w : World) :
  (forall id, check_api_key w id = false) ->
  network (snd (list_models w)) = network w
  /\ exists sts : list (str * bool),
       fst (list_models w) = Return sts
       /\ forall id, statuses_get sts id = false.
Proof.
  intros Hall.
  assert (Hnet : network (snd (list_models w)) = network w).
  { unfold list_models. unfold bind at 1, print, emit, modify.
    set (w0 := log_line _ w).
    destruct (verify_models_spec MODELS w0) as (sts & Hr & _ & _ & Hoff).
    specialize (Hoff Hall).
    unfold bind at 1. destruct (verify_models MODELS w0) as [r w1].
    cbn [fst snd] in Hr, Hoff. subst r.
    destruct (print_models_eq sts MODELS
                (log_line (Print (lit "----"))
                   (log_line (Print (nl ++ lit "Available AI Models:")) w1)))
      as (shown & Hp & _).
    unfold bind, emit, modify. rewrite Hp. cbn. exact Hoff. }
  split; [exact Hnet |].
  set (w0 := log_line (Print (nl ++ lit "Verifying API keys...")) w).
  destruct (verify_models_spec MODELS w0) as (sts & Hr & _ & Hsound & _).
  exists sts. split.
  - unfold list_models. unfold bind at 1, print, emit, modify. fold w0.
    unfold bind at 1. destruct (verify_models MODELS w0) as [r w1].
    cbn [fst snd] in Hr. subst r.
    destruct (print_models_eq sts MODELS
                (log_line (Print (lit "----"))
                   (log_line (Print (nl ++ lit "Available AI Models:")) w1)))
      as (shown & Hp & _).
    unfold bind, emit, modify. by rewrite Hp.
  - intros id. destruct (statuses_get sts id) eqn:Hs; [| done].
    apply Hsound in Hs. rewrite (check_api_key_environ w w0 id eq_refl) in Hs.
    by rewrite Hall in Hs.
Qed.

Lemma list_models_offline_without_usable_key_witness :
  network (snd (@list_models ascii_runtime (answering (lit "OK")) (fresh ∅))) = [].
Proof.
  apply (@list_models_offline_without_usable_key ascii_runtime
           (answering (lit "OK")) (fresh ∅)).
  intros id. unfold check_api_key. destruct (models_get MODELS id); reflexivity.
Defined.

(** *** The update dialogue, case by case *)

(** Where an accepted request ends, up to what was printed: at the failed
    write, at the verified key, or at the rollback write. *)
Lemma add_update_accepted `{Python} `{Externals} (answer_id answer_key : str)
    (m : ModelConfig) (w : World) :
  let model_id := strip answer_id in
  let new_key := strip answer_key in
  let old := environ w !! key_env m in
  let rollback_value :=
    if truthy old && _validate_key_format (Some (provider m)) old
    then default [] old else [] in
  let persisted := _update_env_safely (key_env m) new_key (snd (list_models w)) in
  let verified := verify_api_key model_id (snd persisted) in
  models_get MODELS model_id = Some m ->
  new_key <> [] ->
  _validate_key_format (Some (provider m)) (Some new_key) = true ->
  fst (add_update_api_key answer_id answer_key w) = Return tt
  /\ agree (snd (add_update_api_key answer_id answer_key w))
       (match fst persisted with
        | Return true =>
            match fst verified with
            | Return (true, _) => snd verified
            | _ => snd (_update_env_safely (key_env m) rollback_value
                          (snd verified))
            end
        | _ => snd persisted
        end).
Proof.
  intros model_id new_key old rollback_value persisted verified Hm Hne Hvalid.
  enough (Heq : exists wf : World,
    add_update_api_key answer_id answer_key w = (Return tt, wf)
    /\ agree wf
         (match fst persisted with
          | Return true =>
              match fst verified with
              | Return (true, _) => snd verified
              | _ => snd (_update_env_safely (key_env m) rollback_value
                            (snd verified))
              end
          | _ => snd persisted
          end)).
  { destruct Heq as (wf & -> & Ha). by split. }
  unfold add_update_api_key.
  destruct (quiet_list_models w) as [[sts Hret] (He & Hd & Hw)].
  destruct (list_models w) as [r0 wl] eqn:Hl. cbn [fst snd] in *. subst r0.
  rewrite (bind_return _ _ _ _ _ Hl).
  erewrite bind_return by reflexivity. fold model_id. rewrite Hm.
  erewrite bind_return by reflexivity.
  erewrite bind_return by reflexivity.
  erewrite bind_return by reflexivity.
  fold new_key.
  assert (Ht : truthy (Some new_key) = true) by (by destruct new_key).
  rewrite Ht, Hvalid. cbn [negb].
  set (w4 := log_line _ (log_line _ (log_line _ wl))).
  assert (Ha4 : agree w4 wl) by (by do 3 apply agree_log_line).
  assert (Hold : environ (log_line
                   (Prompt (nl ++ lit "Select model number to add/update API key: "))
                   wl) !! key_env m = old)
    by (subst old; cbn; by rewrite He).
  rewrite Hold.
  destruct (update_env_safely_agree (key_env m) new_key w4 wl Ha4) as [Hp1 Hp2].
  fold persisted in Hp1, Hp2.
  destruct (_update_env_safely (key_env m) new_key w4) as [r5 w5] eqn:H5.
  cbn [fst snd] in Hp1, Hp2. rewrite <- Hp1.
  destruct r5 as [[|]|e5].
  3: { (* the lock is not acquired *)
       eexists. split.
       - rewrite (try_except_raise _ _ _ _ _ (bind_raise _ _ _ _ _ H5)).
         reflexivity.
       - by do 2 apply agree_log_line. }
  2: { eexists. split.
       - eapply try_except_return. rewrite (bind_return _ _ _ _ _ H5). reflexivity.
       - by apply agree_log_line. }
  set (testing := Print (nl ++ lit "Testing API key for " ++ name m ++ lit "...")).
  destruct (verify_api_key_agree model_id (log_line testing w5) (snd persisted)
              (agree_log_line _ _ _ Hp2)) as [Hv1 Hv2].
  fold verified in Hv1, Hv2.
  destruct (verify_api_key_verdict model_id (snd persisted)) as (ok & msg & Hr & _).
  fold verified in Hr. rewrite Hr in Hv1. rewrite Hr.
  destruct (verify_api_key model_id (log_line testing w5)) as [r7 w7] eqn:H7.
  cbn [fst snd] in Hv1, Hv2. subst r7.
  destruct ok.
  { eexists. split.
    - eapply try_except_return. rewrite (bind_return _ _ _ _ _ H5).
      erewrite bind_return by reflexivity.
      erewrite bind_return by exact H7.
      erewrite bind_return by reflexivity. reflexivity.
    - by do 2 apply agree_log_line. }
  set (w9 := log_line
               (Print (warning_sign ++ lit
                  " Verification failed. Reverting to previous API key for "
                  ++ name m ++ lit "."))
               (log_line (Print msg) w7)).
  assert (Ha9 : agree w9 (snd verified)) by (by do 2 apply agree_log_line).
  destruct (update_env_safely_agree (key_env m) rollback_value w9 (snd verified) Ha9)
    as [_ Hr2].
  destruct (_update_env_safely (key_env m) rollback_value w9) as [r10 w10] eqn:H10.
  cbn [fst snd] in Hr2.
  assert (Hbody : forall k : unit -> M World unit,
    (updated <- _update_env_safely (key_env m) new_key ;;
     if (updated : bool) then
       print (nl ++ lit "Testing API key for " ++ name m ++ lit "...") ;;
       r <- verify_api_key model_id ;;
       print (snd r) ;;
       if negb (fst r) then
         print (warning_sign ++ lit
                  " Verification failed. Reverting to previous API key for "
                  ++ name m ++ lit ".") ;;
         _revert_key_safely (key_env m) old
       else
         print (check_mark ++ lit " API key for " ++ name m
                  ++ lit " updated and verified successfully.")
     else
       print (cross ++ lit " Failed to update API key for " ++ name m
                ++ lit ".")) w4
    = (_update_env_safely (key_env m) rollback_value ;; ret tt) w9).
  { intros _. rewrite (bind_return _ _ _ _ _ H5).
    erewrite bind_return by reflexivity.
    erewrite bind_return by exact H7.
    erewrite bind_return by reflexivity.
    cbn [fst snd negb].
    erewrite bind_return by reflexivity.
    by rewrite (revert_key_safely_eq _ _ _ _ Hm). }
  specialize (Hbody (fun _ => ret tt)).
  destruct r10 as [b10|e10].
  - exists w10. split; [| exact Hr2].
    eapply try_except_return. rewrite Hbody.
    by rewrite (bind_return _ _ _ _ _ H10).
  - (* the lock is not acquired for the rollback *)
    eexists. split.
    + erewrite try_except_raise by (rewrite Hbody; apply bind_raise, H10).
      reflexivity.
    + by do 2 apply agree_log_line.
Qed.

Lemma update_env_safely_trace `{Python} `{Externals} (ke v : str) (w : World)
    (b : bool) :
  fst (_update_env_safely ke v w) = Return b ->
  writes (snd (_update_env_safely ke v w)) = writes w ++ [(ke, strip v)]
  /\ network (snd (_update_env_safely ke v w)) = network w
  /\ (is_Some (set_key_io (writes w ++ [(ke, strip v)])) ->
      environ (snd (_update_env_safely ke v w)) = environ w).
Proof.
  rewrite update_env_safely_eq. cbv zeta.
  destruct (lock_io _); [discriminate |].
  destruct (set_key_io _); [by repeat split |].
  destruct (load_dotenv_io _) as [[? ?]|]; intros _; repeat split; try done;
    by intros [? ?].
Qed.

(** X6: an accepted update that verifies is committed.  When the new key is
    one the [.env] round trip keeps (no [$], backslash or carriage return),
    it is written and its verification succeeds, the environment and the
    [.env] file hold the new key under the provider's name, and that write
    is the only one attempted: there is no rollback. *)
Theorem update_commits_verified_key `{Python} `{Externals}
    (answer_id answer_key : str) (m : ModelConfig) (w : World) :
  let model_id := strip answer_id in
  let new_key := strip answer_key in
  let persisted := _update_env_safely (key_env m) new_key (snd (list_models w)) in
  let verified := verify_api_key model_id (snd persisted) in
  let final := snd (add_update_api_key answer_id answer_key w) in
  models_get MODELS model_id = Some m ->
  new_key <> [] ->
  _validate_key_format (Some (provider m)) (Some new_key) = true ->
  verbatim new_key = true ->
  fst persisted = Return true ->
  (exists msg, fst verified = Return (true, msg)) ->
  environ final !! key_env m = Some new_key
  /\ dotenv final !! key_env m = Some new_key
  /\ writes final = writes w ++ [(key_env m, new_key)].
Proof.
  intros model_id new_key persisted verified final Hm Hne Hvalid Hplain Hp [msg Hv].
  destruct (add_update_accepted answer_id answer_key m w Hm Hne Hvalid)
    as [_ Ha]. cbv zeta in Ha. fold model_id new_key persisted verified final in Ha.
  rewrite Hp, Hv in Ha. destruct Ha as (He & Hd & _ & Hw).
  destruct (quiet_verify_api_key model_id (snd persisted)) as [_ (He' & Hd' & Hw')].
  fold verified in He', Hd', Hw'.
  destruct (quiet_list_models w) as [_ (_ & _ & Hwl)].
  assert (Hidem : strip new_key = new_key) by apply strip_idem.
  assert (Hplain' : verbatim (strip new_key) = true) by (by rewrite Hidem).
  pose proof (update_env_safely_stored _ _ _ Hplain' Hp) as Hs.
  destruct (update_env_safely_loaded _ _ _ Hp) as [Hfile _].
  destruct (update_env_safely_trace (key_env m) new_key (snd (list_models w))
              true Hp) as (Htr & _ & _).
  fold persisted in Hs, Htr, Hfile.
  rewrite Hidem in *.
  rewrite He, He', Hd, Hd', Hw, Hw', Htr, Hwl. by repeat split.
Qed.

Lemma update_commits_verified_key_witness :
  environ (snd (@add_update_api_key ascii_runtime (answering (lit "OK"))
                  (lit "1") (lit " AIzaSy_new ") (fresh ∅)))
    !! lit "GOOGLE_API_KEY"
  = Some (lit "AIzaSy_new").
Proof.
  edestruct (@update_commits_verified_key ascii_runtime (answering (lit "OK"))
               (lit "1") (lit " AIzaSy_new ")
               {| name := lit "Gemini"; provider := lit "Google";
                  model := lit "gemini-2.0-flash-exp";
                  key_env := lit "GOOGLE_API_KEY";
                  class := ChatGoogleGenerativeAI |}
               (fresh ∅)) as (Hstored & _ & _).
  - reflexivity.
  - vm_compute. discriminate.
  - reflexivity.
  - vm_compute. reflexivity.
  - vm_compute. reflexivity.
  - eexists. vm_compute. reflexivity.
  - cbn [key_env] in Hstored. rewrite Hstored. vm_compute. reflexivity.
Defined.

(** X7: an update whose first write fails is abandoned.  When
    [_update_env_safely] reports failure for the new key, nothing is sent to
    the provider after the status listing and no second write (no rollback)
    is attempted; and when it is [set_key] that raised, the environment is as
    it was. *)
Theorem update_abandoned_when_write_fails `{Python} `{Externals}
    (answer_id answer_key : str) (m : ModelConfig) (w : World) :
  let model_id := strip answer_id in
  let new_key := strip answer_key in
  let listed := snd (list_models w) in
  let final := snd (add_update_api_key answer_id answer_key w) in
  models_get MODELS model_id = Some m ->
  new_key <> [] ->
  _validate_key_format (Some (provider m)) (Some new_key) = true ->
  fst (_update_env_safely (key_env m) new_key listed) = Return false ->
  (is_Some (set_key_io (writes w ++ [(key_env m, new_key)])) ->
   environ final = environ w)
  /\ network final = network listed
  /\ writes final = writes w ++ [(key_env m, new_key)].
Proof.
  intros model_id new_key listed final Hm Hne Hvalid Hp.
  destruct (add_update_accepted answer_id answer_key m w Hm Hne Hvalid)
    as [_ Ha]. cbv zeta in Ha. fold model_id new_key listed final in Ha.
  rewrite Hp in Ha. destruct Ha as (He & _ & Hn & Hw).
  destruct (update_env_safely_trace (key_env m) new_key listed false Hp)
    as (Htr & Hnet & Henv).
  destruct (quiet_list_models w) as [_ (Hel & _ & Hwl)]. fold listed in Hel, Hwl.
  assert (Hidem : strip new_key = new_key) by apply strip_idem.
  rewrite Hwl, Hidem in Henv.
  rewrite He, Hn, Hw, Htr, Hnet, Hwl, Hidem. repeat split.
  intros Hset. by rewrite (Henv Hset).
Qed.

Lemma update_abandoned_when_write_fails_witness :
  environ (snd (@add_update_api_key ascii_runtime (read_only_disk (lit "OK"))
                  (lit "1") (lit "AIzaSy_new")
                  (fresh {[ lit "GOOGLE_API_KEY" := lit "AIzaSy_old" ]})))
  = {[ lit "GOOGLE_API_KEY" := lit "AIzaSy_old" ]}.
Proof.
  edestruct (@update_abandoned_when_write_fails ascii_runtime
               (read_only_disk (lit "OK")) (lit "1") (lit "AIzaSy_new")
               {| name := lit "Gemini"; provider := lit "Google";
                  model := lit "gemini-2.0-flash-exp";
                  key_env := lit "GOOGLE_API_KEY";
                  class := ChatGoogleGenerativeAI |}
               (fresh {[ lit "GOOGLE_API_KEY" := lit "AIzaSy_old" ]}))
    as (Henv & _ & _).
  - reflexivity.
  - vm_compute. discriminate.
  - reflexivity.
  - vm_compute. reflexivity.
  - apply Henv. by eexists.
Defined.

(** X8: after an accepted update on a disk that does not fail (the lock is
    acquired, the file written and read back), the key stored under the
    provider's name is empty or format-valid for that provider, whatever was
    stored before and whatever the provider answers (no whitespace character
    counting as alphanumeric, as in Python). *)
Theorem update_leaves_empty_or_valid_key `{Python} `{Externals}
    (answer_id answer_key : str) (m : ModelConfig) (w : World) :
  let final := snd (add_update_api_key answer_id answer_key w) in
  (forall c : N, isspace c = true -> isalnum_char c = false) ->
  (forall ws, lock_io ws = None /\ set_key_io ws = None
              /\ load_dotenv_io ws = None) ->
  models_get MODELS (strip answer_id) = Some m ->
  strip answer_key <> [] ->
  _validate_key_format (Some (provider m)) (Some (strip answer_key)) = true ->
  exists v : str,
    environ final !! key_env m = Some v
    /\ (v = [] \/ _validate_key_format (Some (provider m)) (Some v) = true).
Proof.
  intros final Hws Hdisk Hm Hne Hvalid.
  assert (Hok : forall ke v w0, fst (_update_env_safely ke v w0) = Return true).
  { intros ke v w0. rewrite update_env_safely_eq. cbv zeta.
    destruct (Hdisk (writes w0)) as (-> & _ & _).
    destruct (Hdisk (writes w0 ++ [(ke, strip v)])) as (_ & -> & ->).
    reflexivity. }
  destruct (add_update_accepted answer_id answer_key m w Hm Hne Hvalid)
    as [_ Ha]. cbv zeta in Ha. fold final in Ha.
  rewrite Hok in Ha.
  set (persisted := _update_env_safely _ _ _) in Ha.
  set (verified := verify_api_key _ _) in Ha.
  destruct (verify_api_key_verdict (strip answer_id) (snd persisted))
    as (ok & msg & Hr & _).
  fold verified in Hr. rewrite Hr in Ha. destruct ok.
  - destruct Ha as (He & _).
    destruct (quiet_verify_api_key (strip answer_id) (snd persisted))
      as [_ (He' & _ & _)]. fold verified in He'.
    destruct (update_env_safely_loaded _ _ _
                (Hok (key_env m) (strip answer_key) (snd (list_models w))))
      as [_ [e Hs]]. fold persisted in Hs.
    exists (expand e (strip (strip answer_key))). rewrite He, He'.
    split; [exact Hs |].
    right. by apply valid_key_survives_expand, valid_key_survives_strip.
  - destruct Ha as (He & _). rewrite He.
    edestruct update_env_safely_loaded as [_ [e Hs]]; [apply Hok |].
    eexists. split; [exact Hs |].
    destruct (truthy (environ w !! key_env m)
              && _validate_key_format (Some (provider m)) (environ w !! key_env m))
      eqn:Hc; [| by left].
    apply andb_true_iff in Hc as [Ht Hc].
    destruct (environ w !! key_env m) as [o|]; [| done].
    right. by apply valid_key_survives_expand, valid_key_survives_strip.
Qed.

Lemma update_leaves_empty_or_valid_key_witness :
  exists v : str,
    environ (snd (@add_update_api_key ascii_runtime (answering (lit "no"))
                    (lit "3") (lit "sk-new")
                    (fresh {[ lit "OPENAI_API_KEY" := lit "not-a-key" ]})))
      !! lit "OPENAI_API_KEY" = Some v
    /\ (v = [] \/ @_validate_key_format ascii_runtime (Some (lit "OpenAI")) (Some v)
                  = true).
Proof.
  apply (@update_leaves_empty_or_valid_key ascii_runtime (answering (lit "no"))
           (lit "3") (lit "sk-new")
           {| name := lit "GPT-4"; provider := lit "OpenAI"; model := lit "gpt-4";
              key_env := lit "OPENAI_API_KEY"; class := ChatOpenAI |}
           (fresh {[ lit "OPENAI_API_KEY" := lit "not-a-key" ]})).
  - exact ascii_runtime_spaces_not_alnum.
  - intros ws. repeat split.
  - reflexivity.
  - vm_compute. discriminate.
  - reflexivity.
Defined.

(** Where the lock cannot be acquired nothing is written, and a stored
    value that is not format-valid stays as it is. *)
Example update_without_lock_keeps_stored_value :
  let final := snd (@add_update_api_key ascii_runtime
                      (lock_unavailable (lit "no")) (lit "3") (lit "sk-new")
                      (fresh {[ lit "OPENAI_API_KEY" := lit "not-a-key" ]})) in
  environ final !! lit "OPENAI_API_KEY" = Some (lit "not-a-key")
  /\ writes final = [].
Proof. split; vm_compute; reflexivity. Qed.

(** X9: pressing Enter (or typing only blanks) at the key prompt keeps the
    current key: the call returns, the store is untouched, and nothing is
    sent to a provider after the status listing. *)
Theorem update_keeps_key_on_blank_answer `{Python} `{Externals}
    (answer_id answer_key : str) (m : ModelConfig) (w : World) :
  let r := add_update_api_key answer_id answer_key w in
  models_get MODELS (strip answer_id) = Some m ->
  strip answer_key = [] ->
  fst r = Return tt
  /\ store_unchanged w (snd r)
  /\ network (snd r) = network (snd (list_models w)).
Proof.
  intros r Hm Hblank. subst r.
  destruct (quiet_list_models w) as [[sts Hret] (He & Hd & Hw)].
  unfold add_update_api_key.
  destruct (list_models w) as [r0 wl] eqn:Hl. cbn [fst snd] in *. subst r0.
  rewrite (bind_return _ _ _ _ _ Hl).
  erewrite bind_return by reflexivity. rewrite Hm.
  erewrite bind_return by reflexivity.
  erewrite bind_return by reflexivity.
  erewrite bind_return by reflexivity.
  rewrite Hblank. cbn [truthy].
  unfold print, emit, modify, log_line, with_output.
  cbn [fst snd environ dotenv writes network]. by repeat split.
Qed.

Lemma update_keeps_key_on_blank_answer_witness :
  store_unchanged (fresh {[ lit "GOOGLE_API_KEY" := lit "AIzaSy_old" ]})
    (snd (@add_update_api_key ascii_runtime (answering (lit "no"))
            (lit "1") (lit "   ")
            (fresh {[ lit "GOOGLE_API_KEY" := lit "AIzaSy_old" ]}))).
Proof.
  eapply (@update_keeps_key_on_blank_answer ascii_runtime (answering (lit "no"))
            (lit "1") (lit "   ")); reflexivity.
Defined.

(** *** Removing a key *)

(** X10: a removal that is not confirmed changes nothing.  If the model
    selection is unknown, or the selected model has no key set, or the answer
    to the confirmation, stripped and lower-cased, is anything other than
    "yes", then the call returns, no write is attempted, the store is as it
    was, and nothing is sent to a provider after the status listing. *)
Theorem removal_needs_confirmation `{Python} `{Casing} `{Externals}
    (answer_id answer_confirm : str) (w : World) :
  let r := remove_api_key answer_id answer_confirm w in
  (models_get MODELS (strip answer_id) = None
   \/ exists m, models_get MODELS (strip answer_id) = Some m
        /\ (truthy (environ w !! key_env m) = false
            \/ lower (strip answer_confirm) <> lit "yes")) ->
  fst r = Return tt
  /\ store_unchanged w (snd r)
  /\ network (snd r) = network (snd (list_models w)).
Proof.
  intros r Hdecl. subst r.
  destruct (quiet_list_models w) as [[sts Hret] (He & Hd & Hw)].
  unfold remove_api_key.
  destruct (list_models w) as [r0 wl] eqn:Hl. cbn [fst snd] in *. subst r0.
  rewrite (bind_return _ _ _ _ _ Hl).
  erewrite bind_return by reflexivity.
  destruct Hdecl as [Hm | (m & Hm & Hno)]; rewrite Hm.
  { unfold print, emit, modify, log_line, with_output.
    cbn [fst snd environ dotenv writes network]. by repeat split. }
  erewrite bind_return by reflexivity.
  assert (Hk : environ (log_line
                 (Prompt (nl ++ lit "Select model number to remove API key: ")) wl)
               !! key_env m = environ w !! key_env m) by (cbn; by rewrite He).
  rewrite Hk.
  destruct (truthy (environ w !! key_env m)) eqn:Ht.
  2: { unfold print, emit, modify, log_line, with_output.
       cbn [fst snd environ dotenv writes network]. by repeat split. }
  destruct Hno as [Hno | Hno]; [done |].
  erewrite bind_return by reflexivity.
  rewrite bool_decide_eq_false_2 by done.
  unfold print, emit, modify, log_line, with_output.
  cbn [fst snd environ dotenv writes network]. by repeat split.
Qed.

Lemma removal_needs_confirmation_witness :
  store_unchanged (fresh {[ lit "GOOGLE_API_KEY" := lit "AIzaSy_old" ]})
    (snd (@remove_api_key ascii_runtime ascii_casing (answering (lit "no"))
            (lit "1") (lit "y")
            (fresh {[ lit "GOOGLE_API_KEY" := lit "AIzaSy_old" ]}))).
Proof.
  eapply (@removal_needs_confirmation ascii_runtime ascii_casing
            (answering (lit "no")) (lit "1") (lit "y")).
  right. eexists. split; [reflexivity |]. right. vm_compute. discriminate.
Defined.

(** X11: a confirmed removal clears the key.  For a registered model with a
    key set, an answer that strips and lower-cases to "yes", and a write that
    goes through, the environment and the [.env] file afterwards hold the
    empty string under the provider's name, the model reads as not usable,
    and that one write is the only one attempted. *)
Theorem confirmed_removal_clears_key `{Python} `{Casing} `{Externals}
    (answer_id answer_confirm : str) (m : ModelConfig) (w : World) :
  let listed := snd (list_models w) in
  let final := snd (remove_api_key answer_id answer_confirm w) in
  models_get MODELS (strip answer_id) = Some m ->
  truthy (environ w !! key_env m) = true ->
  lower (strip answer_confirm) = lit "yes" ->
  fst (_update_env_safely (key_env m) [] listed) = Return true ->
  environ final !! key_env m = Some ([] : str)
  /\ dotenv final !! key_env m = Some ([] : str)
  /\ check_api_key final (strip answer_id) = false
  /\ writes final = writes w ++ [(key_env m, [])]
  /\ network final = network listed.
Proof.
  intros listed final Hm Ht Hyes Hp.
  destruct (quiet_list_models w) as [[sts Hret] (He & Hd & Hw)].
  fold listed in He, Hd, Hw.
  assert (Hfinal : agree final (snd (_update_env_safely (key_env m) [] listed))).
  { subst final listed. unfold remove_api_key.
    destruct (list_models w) as [r0 wl] eqn:Hl. cbn [fst snd] in *. subst r0.
    rewrite (bind_return _ _ _ _ _ Hl).
    erewrite bind_return by reflexivity. rewrite Hm.
    erewrite bind_return by reflexivity.
    assert (Hk : environ (log_line
                   (Prompt (nl ++ lit "Select model number to remove API key: ")) wl)
                 !! key_env m = environ w !! key_env m) by (cbn; by rewrite He).
    rewrite Hk, Ht.
    erewrite bind_return by reflexivity.
    rewrite Hyes. rewrite bool_decide_eq_true_2 by done.
    set (w3 := log_line _ (log_line _ wl)).
    assert (Ha3 : agree w3 wl) by (by do 2 apply agree_log_line).
    destruct (update_env_safely_agree (key_env m) [] w3 wl Ha3) as [Hp1 Hp2].
    rewrite Hp in Hp1.
    destruct (_update_env_safely (key_env m) [] w3) as [r5 w5] eqn:H5.
    cbn [fst snd] in Hp1, Hp2. subst r5.
    erewrite try_except_return
      by (rewrite (bind_return _ _ _ _ _ H5); reflexivity).
    by apply agree_log_line. }
  destruct Hfinal as (Hfe & Hfd & Hfn & Hfw).
  pose proof (update_env_safely_stored (key_env m) [] listed eq_refl Hp) as Hs.
  destruct (update_env_safely_trace (key_env m) [] listed true Hp)
    as (Htr & Hnet & _).
  destruct (update_env_safely_loaded _ _ _ Hp) as [Hfile _].
  change (strip []) with ([] : str) in *.
  assert (Henv : environ final !! key_env m = Some ([] : str)) by (by rewrite Hfe).
  split; [done |]. split; [by rewrite Hfd |]. split.
  { unfold check_api_key. by rewrite Hm, Henv. }
  split; [by rewrite Hfw, Htr, Hw | by rewrite Hfn, Hnet].
Qed.

Lemma confirmed_removal_clears_key_witness :
  environ (snd (@remove_api_key ascii_runtime ascii_casing (answering (lit "OK"))
                  (lit "1") (lit " YES ")
                  (fresh {[ lit "GOOGLE_API_KEY" := lit "AIzaSy_live" ]})))
    !! lit "GOOGLE_API_KEY"
  = Some ([] : str).
Proof.
  edestruct (@confirmed_removal_clears_key ascii_runtime ascii_casing
               (answering (lit "OK")) (lit "1") (lit " YES ")
               {| name := lit "Gemini"; provider := lit "Google";
                  model := lit "gemini-2.0-flash-exp";
                  key_env := lit "GOOGLE_API_KEY";
                  class := ChatGoogleGenerativeAI |}
               (fresh {[ lit "GOOGLE_API_KEY" := lit "AIzaSy_live" ]}))
    as (Henv & _).
  - reflexivity.
  - vm_compute. reflexivity.
  - vm_compute. reflexivity.
  - vm_compute. reflexivity.
  - exact Henv.
Defined.

(** *** Masking *)

(** X12: the display of a key of eight characters or more depends on its
    first four and last four characters only: two keys that differ only in
    between are displayed alike, in eleven characters. *)
Theorem mask_key_hides_middle (p m m' s : str) :
  length p = 4%nat -> length s = 4%nat ->
  _mask_key (Some (p ++ m ++ s)) = _mask_key (Some (p ++ m' ++ s))
  /\ length (_mask_key (Some (p ++ m ++ s))) = 11%nat.
Proof.
  intros Hp Hs.
  destruct (mask_key_elides_middle p m s Hp Hs) as [-> _].
  destruct (mask_key_elides_middle p m' s Hp Hs) as [-> _].
  split; [done |]. rewrite !length_app, Hp, Hs. reflexivity.
Qed.

Lemma mask_key_hides_middle_witness :
  _mask_key (Some (lit "AIzaSyD3-secret-part-9xQ2"))
  = _mask_key (Some (lit "AIza-another-key-9xQ2")).
Proof.
  apply (mask_key_hides_middle (lit "AIza") (lit "SyD3-secret-part-")
           (lit "-another-key-") (lit "9xQ2")); reflexivity.
Defined.

End LLMManagerMore.

(** * Further properties of the automation session *)

Module BrowserAutomationMore.
Import BrowserAutomation BrowserAutomationSpec.

(** [cleanup], case by case on the two handles and on what the browser
    library answers. *)
Lemma cleanup_eq `{Python} `{Driver} (s : Session) :
  cleanup s =
    let done := LogInfo (lit "Browser resources cleaned up") in
    let failed e := LogError (lit "Error during browser cleanup: " ++ str_of_exn e) in
    let close_browser evs c0 :=
      match browser s with
      | None =>
          (Return tt, {| browser := None; context := c0; calls := evs;
                         log := log s ++ [done] |})
      | Some bh =>
          match close evs (CloseBrowser bh) with
          | None =>
              (Return tt, {| browser := None; context := c0;
                             calls := evs ++ [Called (CloseBrowser bh) true];
                             log := log s ++ [done] |})
          | Some e =>
              (Return tt, {| browser := Some bh; context := c0;
                             calls := evs ++ [Called (CloseBrowser bh) false];
                             log := log s ++ [failed e] |})
          end
      end in
    match context s with
    | None => close_browser (calls s) None
    | Some ch =>
        match close (calls s) (CloseContext ch) with
        | None => close_browser (calls s ++ [Called (CloseContext ch) true]) None
        | Some e =>
            (Return tt, {| browser := browser s; context := Some ch;
                           calls := calls s ++ [Called (CloseContext ch) false];
                           log := log s ++ [failed e] |})
        end
    end.
Proof.
  destruct s as [[b|] [c|] evs lg]; cbv zeta; cbn [browser context calls log];
    unfold cleanup, bind, try_except, gets, call_close; simpl;
    repeat match goal with
      | |- context [close ?a ?c] =>
          let E := fresh "E" in
          destruct (close a c) eqn:E; simpl; rewrite ?E
      end;
    reflexivity.
Qed.

Lemma initialize_returns_ready `{Python} `{Driver} (s : Session) :
  fst (initialize s) = Return tt ->
  is_set (browser (snd (initialize s))) = true
  /\ is_set (context (snd (initialize s))) = true.
Proof.
  rewrite initialize_eq. cbv zeta.
  destruct s as [[b|] [c|] evs lg]; cbn [browser context calls log];
    repeat match goal with
      | |- context [construct ?a ?c] => destruct (construct a c)
      end; cbn; done.
Qed.

Lemma initialize_only_constructs `{Python} `{Driver} (s : Session) :
  exists evs : list DriverEvent,
    calls (snd (initialize s)) = calls s ++ evs
    /\ forallb (fun ev => is_constructor (call ev)) evs = true.
Proof.
  rewrite initialize_eq. cbv zeta.
  destruct s as [[b|] [c|] evs0 lg]; cbn [browser context calls log];
    repeat match goal with
      | |- context [construct ?a ?c] => destruct (construct a c)
      end; cbn [snd calls];
    first [ by (exists []; rewrite app_nil_r)
          | by eexists [_]
          | by (eexists [_; _]; rewrite <- app_assoc) ].
Qed.

(** X13: what a call of [initialize] leaves behind.  If it returns, both
    handles are set.  Whether it returns or raises, a browser handle that
    was already set is kept and no further browser is built, and the calls
    it makes are constructor calls only. *)
Theorem initialize_completes_session `{Python} `{Driver} (s : Session) :
  (fst (initialize s) = Return tt ->
   is_set (browser (snd (initialize s))) = true
   /\ is_set (context (snd (initialize s))) = true)
  /\ (forall b : Handle,
        browser s = Some b ->
        browser (snd (initialize s)) = Some b
        /\ built is_new_browser (calls (snd (initialize s)))
           = built is_new_browser (calls s))
  /\ exists evs : list DriverEvent,
       calls (snd (initialize s)) = calls s ++ evs
       /\ forallb (fun ev => is_constructor (call ev)) evs = true.
Proof.
  split; [apply initialize_returns_ready |].
  split; [| apply initialize_only_constructs].
  intros b Hb. rewrite initialize_eq. cbv zeta. rewrite Hb.
  destruct (context s) as [c|]; [done |].
  destruct (construct (calls s) (NewContext b)); cbn [snd browser calls];
    rewrite built_snoc; cbn; split; (done || lia).
Qed.

(** X14: [cleanup] on a session whose handles are both unset calls nothing
    and leaves the handles unset; so once a teardown has closed everything,
    repeating it is harmless. *)
Theorem cleanup_of_closed_session `{Python} `{Driver} (s : Session) :
  browser s = None -> context s = None ->
  fst (cleanup s) = Return tt
  /\ calls (snd (cleanup s)) = calls s
  /\ browser (snd (cleanup s)) = None
  /\ context (snd (cleanup s)) = None.
Proof.
  intros Hb Hc. rewrite cleanup_eq. cbv zeta. rewrite Hb, Hc. by repeat split.
Qed.

Lemma cleanup_of_closed_session_witness :
  calls (snd (@cleanup ascii_runtime healthy
                (snd (@cleanup ascii_runtime healthy
                        (snd (@initialize ascii_runtime healthy __init__))))))
  = calls (snd (@cleanup ascii_runtime healthy
                  (snd (@initialize ascii_runtime healthy __init__)))).
Proof.
  apply (@cleanup_of_closed_session ascii_runtime healthy
           (snd (@cleanup ascii_runtime healthy
                   (snd (@initialize ascii_runtime healthy __init__)))));
    reflexivity.
Defined.

(** X15: [cleanup] only ever closes what the session holds, context first.
    The calls it adds are: nothing; or closing the held context; or closing
    the held browser (when no context is held); or closing the held context,
    successfully, followed by closing the held browser.  It never builds
    anything. *)
Theorem cleanup_closes_held_handles `{Python} `{Driver} (s : Session) :
  exists evs : list DriverEvent,
    calls (snd (cleanup s)) = calls s ++ evs
    /\ (evs = [] /\ browser s = None /\ context s = None
        \/ (exists ch r, context s = Some ch
              /\ evs = [Called (CloseContext ch) r]
              /\ (r = true -> browser s = None))
        \/ (exists bh r, context s = None /\ browser s = Some bh
              /\ evs = [Called (CloseBrowser bh) r])
        \/ (exists ch bh r, context s = Some ch /\ browser s = Some bh
              /\ evs = [Called (CloseContext ch) true; Called (CloseBrowser bh) r])).
Proof.
  rewrite cleanup_eq. cbv zeta.
  destruct s as [[b|] [c|] evs0 lg]; cbn [browser context calls log];
    repeat match goal with
      | |- context [close ?a ?c] => destruct (close a c)
      end; cbn [snd calls].
  all: try (eexists [_; _]; rewrite <- app_assoc; split; [reflexivity |];
            do 3 right; by eexists _, _, _).
  all: try (eexists [_]; split; [reflexivity |]; right; left;
            by eexists _, _).
  all: try (eexists [_]; split; [reflexivity |]; right; right; left;
            by eexists _, _).
  exists []. rewrite app_nil_r. split; [done |]. by left.
Qed.

(** X16: initialising a session whose handles are both unset (a new one, or
    one that was torn down) builds from scratch: if the call returns, exactly
    one more browser and one more context have been built, the context on the
    browser just built, and both handles are set. *)
Theorem initialize_rebuilds_closed_session `{Python} `{Driver} (s : Session) :
  browser s = None -> context s = None ->
  fst (initialize s) = Return tt ->
  exists bh ch : Handle,
    browser (snd (initialize s)) = Some bh
    /\ context (snd (initialize s)) = Some ch
    /\ calls (snd (initialize s))
       = calls s ++ [Called NewBrowser true; Called (NewContext bh) true]
    /\ built is_new_browser (calls (snd (initialize s)))
       = S (built is_new_browser (calls s))
    /\ built is_new_context (calls (snd (initialize s)))
       = S (built is_new_context (calls s)).
Proof.
  intros Hb Hc. rewrite initialize_eq. cbv zeta. rewrite Hb, Hc.
  destruct (construct (calls s) NewBrowser) as [bh|e]; [| discriminate].
  destruct (construct _ (NewContext bh)) as [ch|e]; [| discriminate].
  intros _. exists bh, ch. cbn [snd browser context calls].
  rewrite !built_snoc, <- app_assoc. cbn. repeat split; lia.
Qed.

Lemma initialize_rebuilds_closed_session_witness :
  exists bh ch : Handle,
    browser (snd (@initialize ascii_runtime healthy
                    (snd (@cleanup ascii_runtime healthy
                            (snd (@initialize ascii_runtime healthy __init__))))))
    = Some bh
    /\ context (snd (@initialize ascii_runtime healthy
                       (snd (@cleanup ascii_runtime healthy
                               (snd (@initialize ascii_runtime healthy __init__))))))
       = Some ch.
Proof.
  destruct (@initialize_rebuilds_closed_session ascii_runtime healthy
              (snd (@cleanup ascii_runtime healthy
                      (snd (@initialize ascii_runtime healthy __init__))))
              eq_refl eq_refl eq_refl) as (bh & ch & Hb & Hc & _).
  by exists bh, ch.
Defined.

End BrowserAutomationMore.

(** * Properties of task execution *)

Module TasksSpec.
Import LLMManager LLMManagerSpec BrowserAutomation BrowserAutomationSpec Tasks.

(** [get_llm], branch by branch. *)
Lemma get_llm_eq `{Python} `{Collaborators} (model_id : str) (a : App) :
  get_llm model_id a =
    match models_get MODELS model_id with
    | None => (Raise (Exception (lit "Invalid model ID: " ++ model_id)), a)
    | Some config =>
        let api_key := environ (world a) !! key_env config in
        if negb (truthy api_key) then
          (Raise (Exception (lit "No API key found for " ++ name config)), a)
        else if negb (_validate_key_format (Some (provider config)) api_key) then
          (Raise (Exception (lit "Invalid " ++ provider config
                               ++ lit " API key format")), a)
        else
          let c := task_client config (default [] api_key) in
          let h := clients a ++ [c] in
          match task_client_init h with
          | Some e =>
              (Raise e,
               with_world
                 (log_line (LogError (lit "Error initializing " ++ name config
                                        ++ lit ": " ++ str_of_exn e)) (world a))
                 (with_clients h a))
          | None => (Return c, with_clients h a)
          end
    end.
Proof.
  destruct a as [w s cs ags qs]. unfold get_llm.
  destruct (models_get MODELS model_id) as [config|]; [| reflexivity].
  unfold bind at 1, in_world, getenv, gets. cbn [fst snd world with_world].
  cbv zeta.
  destruct (negb (truthy _)); [reflexivity |].
  destruct (negb (_validate_key_format _ _)); [reflexivity |].
  unfold try_except, build_client. cbn [clients].
  destruct (task_client_init _); reflexivity.
Qed.

(** [run_task], outcome by outcome of its steps. *)
Lemma run_task_eq `{Python} `{Driver} `{Collaborators} (task model_id : str)
    (mq sq : option nat) (a : App) :
  run_task task model_id mq sq a =
    let failed (e : exn) (a' : App) : outcome unit * App :=
      (Raise e,
       with_world (log_line (LogError (lit "Error during task execution: "
                                         ++ str_of_exn e)) (world a')) a') in
    let a1 := with_session (snd (initialize (session a))) a in
    match fst (initialize (session a)) with
    | Raise e => failed e a1
    | Return _ =>
        match get_llm model_id a1 with
        | (Raise e, a2) => failed e a2
        | (Return llm, a2) =>
            let h3 := agents a2 ++ [AgentNew task llm (browser (session a2))
                                      (context (session a2))] in
            let a3 := with_agents h3 a2 in
            match agent_init h3 with
            | Some e => failed e a3
            | None =>
                match models_get MODELS model_id with
                | None => failed (KeyError model_id) a3
                | Some config =>
                    let a4 := with_world
                                (log_line (LogInfo (lit "Starting task execution with "
                                                      ++ name config)) (world a3))
                                a3 in
                    let h5 := agents a4 ++ [AgentRun] in
                    let a5 := with_agents h5 a4 in
                    match agent_run h5 with
                    | Some e => failed e a5
                    | None =>
                        (Return tt,
                         with_world
                           (log_line (LogInfo (lit "Task completed successfully"))
                              (world a5))
                           (with_queues
                              (delivered mq sq (path_exists h5 gif_path) (queues a5))
                              a5))
                    end
                end
            end
        end
    end.
Proof.
  cbv zeta. unfold run_task. unfold try_except at 1, bind at 1, in_session at 1.
  cbn [fst snd].
  destruct (initialize (session a)) as [[[]|e] s1]; cbn [fst snd]; [| reflexivity].
  unfold bind at 1.
  destruct (get_llm model_id (with_session s1 a)) as [[llm|e] a2]; [| reflexivity].
  unfold bind at 1, new_agent at 1.
  destruct (agent_init _); [reflexivity |].
  unfold bind at 1, model_name at 1.
  destruct (models_get MODELS model_id) as [config|]; [| reflexivity].
  unfold ret at 1, bind at 1, logger_info at 1, in_world at 1, emit at 1, modify at 1.
  cbn [fst snd]. unfold bind at 1, run_agent at 1.
  cbn [agents with_world with_agents].
  destruct (agent_run _); [reflexivity |].
  destruct a2 as [w2 s2 cs2 ags2 qs2]. destruct mq as [q|], sq as [q'|];
    unfold bind, queue_put, modify, gets, ret, logger_info, in_world, emit, modify,
      delivered;
    cbn [fst snd agents queues world session clients with_world with_agents
           with_queues with_session];
    try reflexivity;
    destruct (path_exists _ _); reflexivity.
Qed.

Lemma get_llm_frame `{Python} `{Collaborators} (model_id : str) (a : App) :
  session (snd (get_llm model_id a)) = session a
  /\ agents (snd (get_llm model_id a)) = agents a
  /\ queues (snd (get_llm model_id a)) = queues a
  /\ store_unchanged (world a) (world (snd (get_llm model_id a)))
  /\ network (world (snd (get_llm model_id a))) = network (world a).
Proof.
  rewrite get_llm_eq. destruct (models_get MODELS model_id); [| by repeat split].
  cbv zeta. destruct (negb (truthy _)); [by repeat split |].
  destruct (negb (_validate_key_format _ _)); [by repeat split |].
  destruct (task_client_init _); by repeat split.
Qed.

Lemma get_llm_refuses `{Python} `{Collaborators} (model_id : str) (a : App) :
  check_api_key (world a) model_id = false ->
  get_llm model_id a = (Raise (Exception (refusal model_id a)), a).
Proof.
  unfold check_api_key, refusal. rewrite get_llm_eq.
  destruct (models_get MODELS model_id) as [config|]; [| done]. cbv zeta.
  destruct (truthy _); cbn [negb]; [| done]. by intros ->.
Qed.

(** X17: [get_llm] builds a client exactly when [check_api_key] holds.  For
    a model that [check_api_key] turns down it raises a [ValueError] naming
    the first failed check and touches nothing.  Otherwise it makes one
    constructor call with the stored key and the model name, and returns
    that client, or re-raises what the constructor raised. *)
Theorem get_llm_gated_by_check_api_key `{Python} `{Collaborators}
    (model_id : str) (a : App) :
  (check_api_key (world a) model_id = false ->
   get_llm model_id a = (Raise (Exception (refusal model_id a)), a))
  /\ (check_api_key (world a) model_id = true ->
      exists (config : ModelConfig) (k : str),
        models_get MODELS model_id = Some config
        /\ environ (world a) !! key_env config = Some k
        /\ clients (snd (get_llm model_id a))
           = clients a ++ [task_client config k]
        /\ client_key (task_client config k) = k
        /\ client_model (task_client config k) = model config
        /\ fst (get_llm model_id a)
           = match task_client_init (clients a ++ [task_client config k]) with
             | None => Return (task_client config k)
             | Some e => Raise e
             end).
Proof.
  split; [apply get_llm_refuses |].
  unfold check_api_key. rewrite get_llm_eq.
  destruct (models_get MODELS model_id) as [config|]; [| done]. cbv zeta.
  destruct (environ (world a) !! key_env config) as [k|] eqn:Hk; [| done].
  destruct (truthy (Some k)); cbn [negb]; [| done]. intros ->. cbn [negb].
  exists config, k. change (default [] (Some k)) with k.
  split; [done |]. split; [done |].
  split; [by destruct (task_client_init _) |].
  split; [unfold task_client; by repeat case_bool_decide |].
  split; [unfold task_client; by repeat case_bool_decide |].
  by destruct (task_client_init _).
Qed.

Lemma run_task_session_eq `{Python} `{Driver} `{Collaborators}
    (task model_id : str) (mq sq : option nat) (a : App) :
  session (snd (run_task task model_id mq sq a)) = snd (initialize (session a)).
Proof.
  rewrite run_task_eq. cbv zeta.
  destruct (initialize (session a)) as [[[]|e] s1]; cbn [fst snd]; [| done].
  destruct (get_llm_frame model_id (with_session s1 a)) as (Hs & _).
  destruct (get_llm model_id (with_session s1 a)) as [[llm|e] a2];
    cbn [fst snd] in *; [| done].
  destruct (agent_init _); [done |].
  destruct (models_get MODELS model_id); [| done].
  destruct (agent_run _); done.
Qed.

(** X18: all [run_task] ever does to the session is [initialize] it.
    Whatever the outcome of the task, the session afterwards is the one a
    call of [initialize] alone would have left, and the calls made on the
    browser library are constructor calls: a task, failed or not, never
    closes the browser or its context. *)
Theorem run_task_only_initializes `{Python} `{Driver} `{Collaborators}
    (task model_id : str) (mq sq : option nat) (a : App) :
  let after := session (snd (run_task task model_id mq sq a)) in
  after = snd (initialize (session a))
  /\ exists evs : list DriverEvent,
       calls after = calls (session a) ++ evs
       /\ forallb (fun ev => is_constructor (call ev)) evs = true.
Proof.
  cbv zeta. rewrite run_task_session_eq. split; [done |].
  apply BrowserAutomationMore.initialize_only_constructs.
Qed.

Lemma run_tasks_session `{Python} `{Driver} `{Collaborators}
    (ts : list (str * str * option nat * option nat)) (a : App) :
  session (run_tasks ts a) = initialize_times (length ts) (session a).
Proof.
  revert a. induction ts as [|[[[task model_id] mq] sq] ts IH]; intros a; [done |].
  cbn [run_tasks length initialize_times]. by rewrite IH, run_task_session_eq.
Qed.

(** X19: however many tasks are run from start-up, with whatever keys and
    whatever failures, the browser and the context are built at most once
    each: each handle that is set was built exactly once, and nothing else
    was built. *)
Theorem run_tasks_build_once `{Python} `{Driver} `{Collaborators}
    (ts : list (str * str * option nat * option nat)) (e : gmap str str) :
  let s := session (run_tasks ts (boot e)) in
  built is_new_browser (calls s) = handle_count (browser s)
  /\ built is_new_context (calls s) = handle_count (context s).
Proof.
  cbv zeta. rewrite run_tasks_session.
  apply initialize_times_built_once. by split.
Qed.

(** X20: running a task never changes a credential and never probes a
    provider: environment, [.env] file, write log and the record of
    verification calls are as before, whatever the outcome. *)
Theorem run_task_keeps_credentials `{Python} `{Driver} `{Collaborators}
    (task model_id : str) (mq sq : option nat) (a : App) :
  let after := world (snd (run_task task model_id mq sq a)) in
  store_unchanged (world a) after /\ network after = network (world a).
Proof.
  cbv zeta. rewrite run_task_eq. cbv zeta.
  destruct (initialize (session a)) as [[[]|e] s1]; cbn [fst snd];
    [| by repeat split].
  destruct (get_llm_frame model_id (with_session s1 a))
    as (_ & _ & _ & (He & Hd & Hw) & Hn).
  destruct (get_llm model_id (with_session s1 a)) as [[llm|e] a2];
    cbn [fst snd world with_session] in *; [| by repeat split].
  destruct (agent_init _); [by repeat split |].
  destruct (models_get MODELS model_id); [| by repeat split].
  destruct (agent_run _); by repeat split.
Qed.

(** X21: the key is checked only after the browser has been started.  When
    [initialize] succeeds and the model's key is not usable, [run_task]
    raises the [ValueError] of [get_llm]: no client and no agent is built and
    no queue is written, yet the session is left initialised, both handles
    set. *)
Theorem run_task_with_unusable_key `{Python} `{Driver} `{Collaborators}
    (task model_id : str) (mq sq : option nat) (a : App) :
  let r := run_task task model_id mq sq a in
  fst (initialize (session a)) = Return tt ->
  check_api_key (world a) model_id = false ->
  fst r = Raise (Exception (refusal model_id a))
  /\ clients (snd r) = clients a
  /\ agents (snd r) = agents a
  /\ queues (snd r) = queues a
  /\ is_set (browser (session (snd r))) = true
  /\ is_set (context (session (snd r))) = true.
Proof.
  intros r Hinit Hcheck. subst r.
  destruct (BrowserAutomationMore.initialize_returns_ready (session a) Hinit)
    as [Hb Hc].
  rewrite run_task_session_eq.
  assert (Heq : exists w', run_task task model_id mq sq a
                = (Raise (Exception (refusal model_id a)),
                   with_world w' (with_session (snd (initialize (session a))) a))).
  { rewrite run_task_eq. cbv zeta. rewrite Hinit.
    rewrite (get_llm_refuses model_id (with_session _ a) Hcheck). by eexists. }
  destruct Heq as [w' ->]. by repeat split.
Qed.

Lemma run_task_with_unusable_key_witness :
  fst (@run_task ascii_runtime healthy (cooperative false) (lit "open the page")
         (lit "2") (Some 0%nat) None
         (boot {[ lit "GOOGLE_API_KEY" := lit "AIzaSy_live" ]}))
  = Raise (Exception (lit "No API key found for Claude")).
Proof.
  edestruct (@run_task_with_unusable_key ascii_runtime healthy (cooperative false)
               (lit "open the page") (lit "2") (Some 0%nat) None
               (boot {[ lit "GOOGLE_API_KEY" := lit "AIzaSy_live" ]}))
    as (Hraise & _).
  - reflexivity.
  - vm_compute. reflexivity.
  - rewrite Hraise. vm_compute. reflexivity.
Defined.

(** X22: what a task delivers.  If [run_task] returns, the agent was built
    on the session's two handles, both set, and then run; the message queue,
    if one was given, received the one message "Task executed successfully",
    and the screenshot queue, if one was given, received the path of the
    recording exactly when that file exists.  If [run_task] raises, no queue
    was written. *)
Theorem run_task_delivery `{Python} `{Driver} `{Collaborators}
    (task model_id : str) (mq sq : option nat) (a : App) :
  let r := run_task task model_id mq sq a in
  (fst r = Return tt ->
   exists llm : TaskClient,
     agents (snd r)
     = agents a ++ [AgentNew task llm (browser (session (snd r)))
                      (context (session (snd r))); AgentRun]
     /\ is_set (browser (session (snd r))) = true
     /\ is_set (context (session (snd r))) = true
     /\ queues (snd r)
        = delivered mq sq (path_exists (agents (snd r)) gif_path) (queues a))
  /\ (forall e : exn, fst r = Raise e -> queues (snd r) = queues a).
Proof.
  cbv zeta. rewrite run_task_eq. cbv zeta.
  destruct (initialize (session a)) as [[[]|e] s1] eqn:Hinit; cbn [fst snd];
    [| split; [discriminate | done]].
  pose proof (BrowserAutomationMore.initialize_returns_ready (session a)) as Hready.
  rewrite Hinit in Hready. cbn [fst snd] in Hready.
  destruct (Hready eq_refl) as [Hb Hc].
  destruct (get_llm_frame model_id (with_session s1 a)) as (Hs & Ha & Hq & _).
  destruct (get_llm model_id (with_session s1 a)) as [[llm|e] a2];
    cbn [fst snd session agents queues with_session] in *;
    [| split; [discriminate | done]].
  destruct (agent_init _); [split; [discriminate | done] |].
  destruct (models_get MODELS model_id); [| split; [discriminate | done]].
  cbn [agents with_world with_agents].
  destruct (agent_run _); [split; [discriminate | done] |].
  split; [| discriminate]. intros _. exists llm.
  cbn [fst snd agents session queues with_world with_agents with_queues].
  rewrite Hs, Ha, Hq, <- app_assoc. by repeat split.
Qed.

Lemma run_task_delivery_witness :
  queues (snd (@run_task ascii_runtime healthy (cooperative true)
                 (lit "open the page") (lit "1") (Some 0%nat) (Some 1%nat)
                 (boot {[ lit "GOOGLE_API_KEY" := lit "AIzaSy_live" ]})))
  = {[ 0%nat := [lit "Task executed successfully"];
       1%nat := [lit "/home/user/app/agent_history.gif"] ]}.
Proof.
  edestruct (proj1 (@run_task_delivery ascii_runtime healthy (cooperative true)
               (lit "open the page") (lit "1") (Some 0%nat) (Some 1%nat)
               (boot {[ lit "GOOGLE_API_KEY" := lit "AIzaSy_live" ]})))
    as (llm & _ & _ & _ & Hq).
  - vm_compute. reflexivity.
  - rewrite Hq. vm_compute. reflexivity.
Defined.

End TasksSpec.
